(** * korektor: corpus index builder and example-map merger

    A shallow embedding of [src/corpus/index_builder.py] and of the key filter
    and the merge step of [src/build_examples_stream.py], with the properties
    of the pipeline proved over it.

    Python values are modelled as follows.
    - [str] is a sequence of Unicode code points ([list Z]); [len], slicing,
      [strip], [startswith], [in] and the regular-expression class of the key
      filter all work on code points.
    - a [dict] whose iteration order is observable (the wordform map, a
      [Counter], the example maps) is an association list in insertion order;
      a [dict] that is only looked up (the sentence table) is a [gmap].
    - a [set] is a [gset]; the order in which Python iterates over it is a
      parameter of the model.
    - list objects that are shared between dictionaries live in an explicit
      heap, so that [list.extend] is visible through every alias.
    - exceptions are values of [exn]; a call that can raise returns a
      [result]. *)

From Stdlib Require Import ZArith QArith Sorted.
From stdpp Require Import gmap strings list fin_maps.

Open Scope Z_scope.
Open Scope nat_scope.

(* ===================================================================== *)
(** ** Python strings *)
(* ===================================================================== *)

Module PyStr.

(** A Python [str]: its code points, in order. *)
Definition str := list Z.

Definition byte_of (a : Ascii.ascii) : Z := Z.of_N (Ascii.N_of_ascii a).

Fixpoint bytes_of (s : string) : list Z :=
  match s with
  | EmptyString => []
  | String a r => byte_of a :: bytes_of r
  end.

Definition cont (b : Z) : Z := Z.land b 63.

(** UTF-8 decoding, used only to write literals of the source text: the
    source files are UTF-8, and so is this one. *)
Fixpoint utf8_decode (bs : list Z) : str :=
  match bs with
  | [] => []
  | b0 :: r0 =>
    if (b0 <? 128)%Z then b0 :: utf8_decode r0
    else if (b0 <? 224)%Z then
      match r0 with
      | b1 :: r1 =>
        Z.lor (Z.shiftl (Z.land b0 31) 6) (cont b1) :: utf8_decode r1
      | _ => []
      end
    else if (b0 <? 240)%Z then
      match r0 with
      | b1 :: b2 :: r2 =>
        Z.lor (Z.shiftl (Z.land b0 15) 12)
              (Z.lor (Z.shiftl (cont b1) 6) (cont b2)) :: utf8_decode r2
      | _ => []
      end
    else
      match r0 with
      | b1 :: b2 :: b3 :: r3 =>
        Z.lor (Z.shiftl (Z.land b0 7) 18)
              (Z.lor (Z.shiftl (cont b1) 12)
                     (Z.lor (Z.shiftl (cont b2) 6) (cont b3))) :: utf8_decode r3
      | _ => []
      end
  end.

(** [py "..."] is the Python string written between the quotes. *)
Definition py (s : string) : str := utf8_decode (bytes_of s).

Definition in_range (lo hi c : Z) : bool := ((lo <=? c) && (c <=? hi))%Z.

Definition in_ranges (rs : list (Z * Z)) (c : Z) : bool :=
  existsb (fun r => in_range r.1 r.2 c) rs.

(** [ch.isspace()]: the code points Python treats as whitespace. *)
Definition isspace (c : Z) : bool :=
  in_ranges [(0x9, 0xd); (0x1c, 0x20); (0x85, 0x85); (0xa0, 0xa0);
             (0x1680, 0x1680); (0x2000, 0x200a); (0x2028, 0x2029);
             (0x202f, 0x202f); (0x205f, 0x205f); (0x3000, 0x3000)]%Z c.

Fixpoint lstrip (s : str) : str :=
  match s with
  | c :: r => if isspace c then lstrip r else s
  | [] => []
  end.

Definition rstrip (s : str) : str := rev (lstrip (rev s)).

(** [s.strip()] *)
Definition strip (s : str) : str := rstrip (lstrip s).

(** Truth value of a string: [if s], [not s]. *)
Definition truthy (s : str) : bool :=
  match s with [] => false | _ => true end.

Definition eqb (s t : str) : bool := bool_decide (s = t).

(** [s.startswith(p)] *)
Fixpoint startswith (p s : str) : bool :=
  match p, s with
  | [], _ => true
  | a :: p', b :: s' => (a =? b)%Z && startswith p' s'
  | _ :: _, [] => false
  end.

(** [p in s] for strings: substring search. *)
Fixpoint contains (p s : str) : bool :=
  startswith p s ||
  match s with
  | [] => false
  | _ :: s' => contains p s'
  end.

(** [c in s] for a single character. *)
Definition has_char (c : Z) (s : str) : bool := existsb (Z.eqb c) s.

(** [ch.isdigit()]: code points whose Numeric_Type is Digit or Decimal
    (Unicode 14, the table of the CPython 3.11 interpreter). *)
Definition digit_ranges : list (Z * Z) :=
  [
   (0x30, 0x39); (0xb2, 0xb3); (0xb9, 0xb9); (0x660, 0x669);
   (0x6f0, 0x6f9); (0x7c0, 0x7c9); (0x966, 0x96f); (0x9e6, 0x9ef);
   (0xa66, 0xa6f); (0xae6, 0xaef); (0xb66, 0xb6f); (0xbe6, 0xbef);
   (0xc66, 0xc6f); (0xce6, 0xcef); (0xd66, 0xd6f); (0xde6, 0xdef);
   (0xe50, 0xe59); (0xed0, 0xed9); (0xf20, 0xf29); (0x1040, 0x1049);
   (0x1090, 0x1099); (0x1369, 0x1371); (0x17e0, 0x17e9); (0x1810, 0x1819);
   (0x1946, 0x194f); (0x19d0, 0x19da); (0x1a80, 0x1a89); (0x1a90, 0x1a99);
   (0x1b50, 0x1b59); (0x1bb0, 0x1bb9); (0x1c40, 0x1c49); (0x1c50, 0x1c59);
   (0x2070, 0x2070); (0x2074, 0x2079); (0x2080, 0x2089); (0x2460, 0x2468);
   (0x2474, 0x247c); (0x2488, 0x2490); (0x24ea, 0x24ea); (0x24f5, 0x24fd);
   (0x24ff, 0x24ff); (0x2776, 0x277e); (0x2780, 0x2788); (0x278a, 0x2792);
   (0xa620, 0xa629); (0xa8d0, 0xa8d9); (0xa900, 0xa909); (0xa9d0, 0xa9d9);
   (0xa9f0, 0xa9f9); (0xaa50, 0xaa59); (0xabf0, 0xabf9); (0xff10, 0xff19);
   (0x104a0, 0x104a9); (0x10a40, 0x10a43); (0x10d30, 0x10d39); (0x10e60, 0x10e68);
   (0x11052, 0x1105a); (0x11066, 0x1106f); (0x110f0, 0x110f9); (0x11136, 0x1113f);
   (0x111d0, 0x111d9); (0x112f0, 0x112f9); (0x11450, 0x11459); (0x114d0, 0x114d9);
   (0x11650, 0x11659); (0x116c0, 0x116c9); (0x11730, 0x11739); (0x118e0, 0x118e9);
   (0x11950, 0x11959); (0x11c50, 0x11c59); (0x11d50, 0x11d59); (0x11da0, 0x11da9);
   (0x16a60, 0x16a69); (0x16ac0, 0x16ac9); (0x16b50, 0x16b59); (0x1d7ce, 0x1d7ff);
   (0x1e140, 0x1e149); (0x1e2f0, 0x1e2f9); (0x1e950, 0x1e959); (0x1f100, 0x1f10a);
   (0x1fbf0, 0x1fbf9)]%Z.

Definition isdigit (c : Z) : bool := in_ranges digit_ranges c.

(** [ch.lower()] for a single code point below U+0180; this covers every
    code point the key filter lets through, which is all that the source
    lower-cases.  U+0130 lower-cases to two code points. *)
Definition lower_cp (c : Z) : list Z :=
  (if in_range 0x41 0x5a c then [c + 32]
  else if in_range 0xc0 0xde c && negb (c =? 0xd7) then [c + 32]
  else if c =? 0x130 then [0x69; 0x307]
  else if (in_range 0x100 0x137 c || in_range 0x14a 0x177 c) && Z.even c
       then [c + 1]
  else if (in_range 0x139 0x148 c || in_range 0x179 0x17e c) && Z.odd c
       then [c + 1]
  else if c =? 0x178 then [0xff]
  else [c])%Z.

(** [s.lower()] *)
Definition lower (s : str) : str := flat_map lower_cp s.

(** Lexicographic order on code points, the order of [sorted] on strings. *)
Fixpoint ltb (s t : str) : bool :=
  match s, t with
  | _, [] => false
  | [], _ :: _ => true
  | a :: s', b :: t' => (a <? b)%Z || ((a =? b)%Z && ltb s' t')
  end.

End PyStr.

Import PyStr.

(* ===================================================================== *)
(** ** Dictionaries in insertion order, counters, exceptions *)
(* ===================================================================== *)

Module PyDict.
Section Dict.
Context {K : Type} `{EqDecision K} {V : Type}.

(** A [dict]: its items in insertion order, one per key. *)
Definition dict := list (K * V).

(** [d.get(k)] *)
Fixpoint get (k : K) (d : dict) : option V :=
  match d with
  | [] => None
  | (k', v) :: r => if decide (k = k') then Some v else get k r
  end.

(** [k in d] *)
Definition mem (k : K) (d : dict) : bool :=
  match get k d with Some _ => true | None => false end.

(** [d[k] = v]: an existing key keeps its place, a new key goes last. *)
Fixpoint set (k : K) (v : V) (d : dict) : dict :=
  match d with
  | [] => [(k, v)]
  | (k', v') :: r =>
    if decide (k = k') then (k, v) :: r else (k', v') :: set k v r
  end.

Definition keys (d : dict) : list K := map fst d.
End Dict.
Arguments dict : clear implicits.
End PyDict.

Module Counter.
Section Counter.
Context {K : Type} `{EqDecision K}.

(** [collections.Counter]: a dict of counts; a missing key reads as 0. *)
Definition counter := PyDict.dict K nat.

(** [c[k] += 1] *)
Definition incr (k : K) (c : counter) : counter :=
  PyDict.set k (default 0 (PyDict.get k c) + 1) c.

(** [max(items, key=itemgetter(1))]: the running maximum is replaced
    only by a strictly larger count, so the first maximal item wins. *)
Fixpoint max_item (best : K * nat) (l : list (K * nat)) : K * nat :=
  match l with
  | [] => best
  | x :: r => max_item (if best.2 <? x.2 then x else best) r
  end.

(** [c.most_common(1)], which is [heapq.nlargest(1, c.items(), key=...)],
    which for [n = 1] is [max] over the items in iteration order. *)
Definition most_common1 (c : counter) : list (K * nat) :=
  match c with
  | [] => []
  | x :: r => [max_item x r]
  end.
End Counter.
Arguments counter : clear implicits.
End Counter.

Inductive exn :=
| KeyError
| ZeroDivisionError
| IntegrityError
| OperationalError.

Inductive result (A : Type) :=
| Ok (a : A)
| Raise (e : exn).
Arguments Ok {A} a.
Arguments Raise {A} e.

Definition bind {A B : Type} (r : result A) (k : A -> result B) : result B :=
  match r with
  | Ok a => k a
  | Raise e => Raise e
  end.

Definition is_ok {A : Type} (r : result A) : bool :=
  match r with Ok _ => true | Raise _ => false end.

(** One line of a JSONL input file, as the reading loops see it. *)
Inductive line (A : Type) :=
| Blank            (* [line.strip()] is empty *)
| NotJson          (* [json.loads(line)] raises [JSONDecodeError] *)
| NoField          (* [json.loads(line)] returns, a subscript [data['...']] raises [KeyError] *)
| Rec (a : A).     (* [json.loads(line)] returns an object with the fields that are read, all strings *)
Arguments Blank {A}.
Arguments NotJson {A}.
Arguments NoField {A}.
Arguments Rec {A} a.

(** [for line_num, line in enumerate(f, n): ...] with a body that may raise. *)
Fixpoint for_lines {A S : Type} (body : nat -> line A -> S -> result S)
    (line_num : nat) (lines : list (line A)) (st : S) : result S :=
  match lines with
  | [] => Ok st
  | l :: rest =>
    match body line_num l st with
    | Ok st' => for_lines body (Datatypes.S line_num) rest st'
    | Raise e => Raise e
    end
  end.

(* ===================================================================== *)
(** ** src/corpus/index_builder.py *)
(* ===================================================================== *)

Module IndexBuilder.

(** A line of [sentences.jsonl]: [data['sentence_id']], [data['text']]. *)
Record Sentence := { s_id : str; s_text : str }.

(** A line of [morphology_data.jsonl], with the fields the aggregator reads. *)
Record MorphToken := {
  form : str;
  lemma : str;
  upos : str;
  feats : str;
  sentence_id : str
}.

(** The value the [defaultdict] of [process_morphology_data] keeps per
    wordform. *)
Record WordformRecord := {
  wf_lemma : option str;               (* ['lemma'], [None] until first set *)
  wf_upos : option str;                (* ['upos'] *)
  feats_counter : Counter.counter str; (* ['feats_counter'] *)
  frequency : nat;                     (* ['frequency'] *)
  sentence_ids : gset str              (* ['sentence_ids'] *)
}.

(** The [defaultdict] factory. *)
Definition new_record : WordformRecord :=
  {| wf_lemma := None; wf_upos := None; feats_counter := [];
     frequency := 0; sentence_ids := ∅ |}.

(** *** load_sentences *)

Record LoadState := {
  sentences_of : gmap str str;
  load_warnings : list nat   (* line numbers reported as JSON errors *)
}.

Definition load_line (line_num : nat) (l : line Sentence) (st : LoadState)
    : result LoadState :=
  match l with
  | Blank => Ok st
  | NotJson =>
    Ok {| sentences_of := sentences_of st;
          load_warnings := load_warnings st ++ [line_num] |}
  | NoField => Raise KeyError
  | Rec s =>
    Ok {| sentences_of := <[s_id s := s_text s]> (sentences_of st);
          load_warnings := load_warnings st |}
  end.

Definition load_sentences (sentences_file : list (line Sentence))
    : result LoadState :=
  for_lines load_line 1 sentences_file
    {| sentences_of := ∅; load_warnings := [] |}.

(** *** process_morphology_data *)

Record AggState := {
  wordforms : PyDict.dict str WordformRecord;
  processed_tokens : nat;
  warnings : list nat        (* line numbers reported as JSON errors *)
}.

(** Lines 64-82: the update of the record of [form t]. *)
Definition update_record (t : MorphToken) (wf : WordformRecord) : WordformRecord :=
  {| (* if wf['lemma'] is None: wf['lemma'] = lemma; wf['upos'] = upos *)
     wf_lemma := match wf_lemma wf with
                 | None => Some (lemma t)
                 | Some l => Some l
                 end;
     wf_upos := match wf_lemma wf with
                | None => Some (upos t)
                | Some _ => wf_upos wf
                end;
     (* if feats: counter[feats] += 1 else: counter[''] += 1 *)
     feats_counter := if truthy (feats t)
                      then Counter.incr (feats t) (feats_counter wf)
                      else Counter.incr [] (feats_counter wf);
     (* wf['frequency'] += 1 *)
     frequency := frequency wf + 1;
     (* if len(wf['sentence_ids']) < 10: wf['sentence_ids'].add(sentence_id) *)
     sentence_ids := if size (sentence_ids wf) <? 10
                     then {[sentence_id t]} ∪ sentence_ids wf
                     else sentence_ids wf |}.

(** [wf = wordforms[form]] followed by the in-place updates. *)
Definition add_token (t : MorphToken) (wfs : PyDict.dict str WordformRecord)
    : PyDict.dict str WordformRecord :=
  PyDict.set (form t)
    (update_record t (default new_record (PyDict.get (form t) wfs))) wfs.

(** The body of the loop of lines 49-91. *)
Definition morph_line (line_num : nat) (l : line MorphToken) (st : AggState)
    : result AggState :=
  match l with
  | Blank => Ok st
  | NotJson =>
    Ok {| wordforms := wordforms st;
          processed_tokens := processed_tokens st;
          warnings := warnings st ++ [line_num] |}
  | NoField => Raise KeyError
  | Rec t =>
    if negb (truthy (strip (form t))) then Ok st
    else Ok {| wordforms := add_token t (wordforms st);
               processed_tokens := processed_tokens st + 1;
               warnings := warnings st |}
  end.

Definition agg_init : AggState :=
  {| wordforms := []; processed_tokens := 0; warnings := [] |}.

(** The aggregation loop started at line [1] on the empty map. *)
Definition aggregate (morphology_file : list (line MorphToken)) : result AggState :=
  for_lines morph_line 1 morphology_file agg_init.

Definition process_morphology_data (morphology_file : list (line MorphToken))
    (sentences : gmap str str) : result (PyDict.dict str WordformRecord) :=
  bind (aggregate morphology_file) (fun st => Ok (wordforms st)).

(** *** select_example_sentences *)

(** [len(text) > 10 and not text.startswith('=') and 'http' not in text] *)
Definition acceptable (text : str) : bool :=
  (10 <? length text) && negb (startswith (py "=") text)
  && negb (contains (py "http") text).

(** The first loop: the stripped texts of the resolvable ids that pass. *)
Fixpoint filter_available (ids : list str) (sentences : gmap str str) : list str :=
  match ids with
  | [] => []
  | sid :: r =>
    match sentences !! sid with
    | Some t =>
      let text := strip t in
      if acceptable text then text :: filter_available r sentences
      else filter_available r sentences
    | None => filter_available r sentences
    end
  end.

(** The second loop: the first resolvable id, whatever its text. *)
Fixpoint first_available (ids : list str) (sentences : gmap str str) : list str :=
  match ids with
  | [] => []
  | sid :: r =>
    match sentences !! sid with
    | Some t => [strip t]
    | None => first_available r sentences
    end
  end.

(** [while len(selected) < max_examples and remaining:
       selected.append(remaining.pop())]; [stack] is [remaining] read from
    its end, which is where [pop] takes from. *)
Fixpoint fill (max_examples : nat) (selected stack : list str) : list str :=
  match stack with
  | [] => selected
  | x :: rest =>
    if length selected <? max_examples
    then fill max_examples (selected ++ [x]) rest
    else selected
  end.

(** A row of the table [wordforms], without its autoincrement [id] (the
    position in the table).  [r_sentences] is the list whose
    [json.dumps(..., ensure_ascii=False)] text is stored. *)
Record Row := {
  r_wordform : str;
  r_lemma : option str;
  r_upos : option str;
  r_feats : str;
  r_frequency : nat;
  r_sentences : list str
}.

(** The SQLite file: the committed rows of [wordforms] and the names of
    its indexes. *)
Record Store := {
  rows : list Row;
  indexes : list string
}.

(** The [stats] dictionary while the rows are prepared. *)
Record StatsAcc := {
  acc_total_wordforms : nat;
  acc_pos_distribution : Counter.counter (option str);
  acc_total_examples : nat;
  acc_feats_coverage : gset str
}.

(** The [stats] dictionary that is returned. *)
Record Stats := {
  total_wordforms : nat;
  pos_distribution : PyDict.dict (option str) nat;
  total_examples : nat;
  feats_coverage : list str;
  avg_examples_per_wordform : Q;   (* the quotient the float approximates *)
  unique_feats_count : nat
}.

(** The three files the run writes under [base_dir]; [None]: no such file. *)
Record FS := {
  db_file : option Store;         (* index.sqlite *)
  export_file : option (list Row);(* index_export.jsonl, one record per line *)
  stats_file : option Stats       (* index_stats.json *)
}.

(** [f"Пример с '{wordform}' недоступен."] *)
Definition placeholder (wordform : str) : str :=
  py "Пример с '" ++ wordform ++ py "' недоступен.".

(** [data['feats_counter'].most_common(1)[0][0] if data['feats_counter'] else ''] *)
Definition most_common_feats (data : WordformRecord) : str :=
  match Counter.most_common1 (feats_counter data) with
  | (f, _) :: _ => f
  | [] => []
  end.

(** The NOT NULL columns of the table that can receive [None]. *)
Definition not_null_ok (r : Row) : bool :=
  match r_lemma r, r_upos r with
  | Some _, Some _ => true
  | _, _ => false
  end.

(** [cursor.executemany(INSERT ..., insert_data)] inside the open
    transaction [txn].  [fault = Some n] is the environment failing (disk
    full, I/O error) on the insertion that follows [n] successful ones. *)
Fixpoint executemany (fault : option nat) (i : nat) (insert_data txn : list Row)
    : result (list Row) :=
  match insert_data with
  | [] => Ok txn
  | r :: rest =>
    if decide (fault = Some i) then Raise OperationalError
    else if negb (not_null_ok r) then Raise IntegrityError
    else executemany fault (S i) rest (txn ++ [r])
  end.

(** Insertion of [x] into a list sorted by key, for [sorted(d.items())]. *)
Fixpoint insert_sorted {V : Type} (x : str * V) (l : list (str * V)) : list (str * V) :=
  match l with
  | [] => [x]
  | y :: r => if ltb x.1 y.1 then x :: l else y :: insert_sorted x r
  end.

Definition sorted_items {V : Type} (d : PyDict.dict str V) : list (str * V) :=
  foldr insert_sorted [] d.

Section Pipeline.
(** [random.shuffle] reads and advances the state of the generator; the
    order in which a [set] is iterated is fixed by the interpreter. *)
Context {rng : Type} (shuffle : rng -> list str -> rng * list str).
Context (set_iter : gset str -> list str).

Definition select_example_sentences (sentence_ids : gset str)
    (sentences : gmap str str) (max_examples : nat) (g : rng)
    : rng * list str :=
  let ids := set_iter sentence_ids in
  let available := filter_available ids sentences in
  let available :=
    match available with
    | [] => first_available ids sentences
    | _ => available
    end in
  if length available <=? max_examples then (g, available)
  else
    let selected := [default [] (head available)] in
    let selected :=
      if 1 <? length available
      then selected ++ [default [] (last available)] else selected in
    let selected :=
      if 2 <? length available
      then selected ++ [default [] (available !! (length available / 2))]
      else selected in
    let remaining := filter (fun s => s ∉ selected) available in
    let '(g', remaining) := shuffle g remaining in
    (g', take max_examples (fill max_examples selected (rev remaining))).

(** Lines 178-185: the feature string and the examples of one record. *)
Definition examples_for (wordform : str) (data : WordformRecord)
    (sentences : gmap str str) (g : rng) : rng * list str :=
  let '(g', example_sentences) :=
    select_example_sentences (sentence_ids data) sentences 5 g in
  match example_sentences with
  | [] => (g', [placeholder wordform])
  | _ => (g', example_sentences)
  end.

Definition make_row (wordform : str) (data : WordformRecord)
    (example_sentences : list str) : Row :=
  {| r_wordform := wordform;
     r_lemma := wf_lemma data;
     r_upos := wf_upos data;
     r_feats := most_common_feats data;
     r_frequency := frequency data;
     r_sentences := example_sentences |}.

(** One turn of the loop of lines 176-204. *)
Definition prepare (sentences : gmap str str)
    (st : rng * list Row * StatsAcc) (item : str * WordformRecord)
    : rng * list Row * StatsAcc :=
  let '(g, insert_data, stats) := st in
  let '(wordform, data) := item in
  let '(g', example_sentences) := examples_for wordform data sentences g in
  let row := make_row wordform data example_sentences in
  (g', insert_data ++ [row],
   {| acc_total_wordforms := acc_total_wordforms stats + 1;
      acc_pos_distribution :=
        Counter.incr (wf_upos data) (acc_pos_distribution stats);
      acc_total_examples :=
        acc_total_examples stats + length example_sentences;
      acc_feats_coverage :=
        if truthy (r_feats row)
        then {[r_feats row]} ∪ acc_feats_coverage stats
        else acc_feats_coverage stats |}).

Definition stats_init : StatsAcc :=
  {| acc_total_wordforms := 0; acc_pos_distribution := [];
     acc_total_examples := 0; acc_feats_coverage := ∅ |}.

Definition prepare_all (wordforms_data : PyDict.dict str WordformRecord)
    (sentences : gmap str str) (g : rng) : rng * list Row * StatsAcc :=
  fold_left (prepare sentences) wordforms_data (g, [], stats_init).

Definition index_names : list string :=
  ["idx_wordform"; "idx_lemma"; "idx_upos"; "idx_frequency"]%string.

(** Lines 231-235; the division raises when no wordform was counted. *)
Definition finalize (stats : StatsAcc) : result Stats :=
  match acc_total_wordforms stats with
  | 0 => Raise ZeroDivisionError
  | S _ =>
    Ok {| total_wordforms := acc_total_wordforms stats;
          pos_distribution := acc_pos_distribution stats;
          total_examples := acc_total_examples stats;
          feats_coverage := set_iter (acc_feats_coverage stats);
          avg_examples_per_wordform :=
            Qmake (Z.of_nat (acc_total_examples stats))
                  (Pos.of_nat (acc_total_wordforms stats));
          unique_feats_count := size (acc_feats_coverage stats) |}
  end.

Definition with_db (fs : FS) (db : option Store) : FS :=
  {| db_file := db; export_file := export_file fs; stats_file := stats_file fs |}.

(** [create_sqlite_database(wordforms_data, sentences, db_file)].  The
    result is the file system it leaves, the state of the generator, and
    the statistics or the exception that ends the call. *)
Definition create_sqlite_database (fault : option nat)
    (wordforms_data : PyDict.dict str WordformRecord)
    (sentences : gmap str str) (g : rng) (fs : FS)
    : FS * rng * result Stats :=
  (* if os.path.exists(db_file): os.remove(db_file) *)
  let fs := with_db fs None in
  (* sqlite3.connect(db_file); CREATE TABLE wordforms (...) *)
  let fs := with_db fs (Some {| rows := []; indexes := [] |}) in
  (* for wordform, data in wordforms_data.items(): ... *)
  let '(g, insert_data, stats) := prepare_all wordforms_data sentences g in
  (* BEGIN TRANSACTION; executemany; commit *)
  match executemany fault 0 insert_data [] with
  | Raise e => (fs, g, Raise e)
  | Ok txn =>
    let fs := with_db fs (Some {| rows := txn; indexes := [] |}) in
    (* CREATE INDEX (4 times); VACUUM; ANALYZE; conn.close() *)
    let fs := with_db fs (Some {| rows := txn; indexes := index_names |}) in
    (fs, g, finalize stats)
  end.

(** One line of [create_jsonl_export]. *)
Definition export_record (sentences : gmap str str)
    (st : rng * list Row) (item : str * WordformRecord) : rng * list Row :=
  let '(g, out) := st in
  let '(wordform, data) := item in
  let '(g', example_sentences) := examples_for wordform data sentences g in
  (g', out ++ [make_row wordform data example_sentences]).

Definition create_jsonl_export
    (wordforms_data : PyDict.dict str WordformRecord)
    (sentences : gmap str str) (g : rng) (fs : FS) : FS * rng :=
  let '(g', out) :=
    fold_left (export_record sentences) (sorted_items wordforms_data) (g, []) in
  ({| db_file := db_file fs; export_file := Some out;
      stats_file := stats_file fs |}, g').

Definition save_statistics (stats : Stats) (fs : FS) : FS :=
  {| db_file := db_file fs; export_file := export_file fs;
     stats_file := Some stats |}.

(** How a run of [main] ends. *)
Inductive outcome :=
| InputMissing             (* an input file is absent: message, return *)
| Failed (e : exn)         (* [except Exception]: message and traceback *)
| Completed (stats : Stats).

(** [main()]; an input file that does not exist is [None]. *)
Definition main (sentences_file : option (list (line Sentence)))
    (morphology_file : option (list (line MorphToken)))
    (fault : option nat) (g : rng) (fs : FS) : FS * outcome :=
  match sentences_file, morphology_file with
  | None, _ => (fs, InputMissing)
  | _, None => (fs, InputMissing)
  | Some slines, Some mlines =>
    match load_sentences slines with
    | Raise e => (fs, Failed e)
    | Ok ld =>
      let sentences := sentences_of ld in
      match process_morphology_data mlines sentences with
      | Raise e => (fs, Failed e)
      | Ok wordforms_data =>
        match create_sqlite_database fault wordforms_data sentences g fs with
        | (fs, _, Raise e) => (fs, Failed e)
        | (fs, g, Ok stats) =>
          let '(fs, _) := create_jsonl_export wordforms_data sentences g fs in
          (save_statistics stats fs, Completed stats)
        end
      end
    end
  end.
End Pipeline.

End IndexBuilder.

(* ===================================================================== *)
(** ** src/build_examples_stream.py *)
(* ===================================================================== *)

Module ExamplesStream.

(** The character class of the regular expression of line 96:
    [A-Za-zÀ-ž] followed by the Slovak letters listed one by one. *)
Definition key_class (c : Z) : bool :=
  (in_range 0x41 0x5a c || in_range 0x61 0x7a c || in_range 0xc0 0x17e c
   || existsb (Z.eqb c)
        [0xc1; 0xe1; 0xc4; 0xe4; 0x10c; 0x10d; 0x10e; 0x10f; 0xc9; 0xe9;
         0xcd; 0xed; 0x139; 0x13a; 0x13d; 0x13e; 0x147; 0x148; 0xd3; 0xf3;
         0xd4; 0xf4; 0x154; 0x155; 0x158; 0x159; 0x160; 0x161; 0x164;
         0x165; 0xda; 0xfa; 0xdd; 0xfd; 0x17d; 0x17e])%Z.

(** [re.fullmatch(r"[...]{2,30}", key)] *)
Definition fullmatch_key (key : str) : bool :=
  forallb key_class key && (2 <=? length key) && (length key <=? 30).

(** Lines 85-99 of [process_page]: the key under which the page is filed,
    or [None] when the page is dropped. *)
Definition candidate_key (current_title current_text : str) : option str :=
  if negb (truthy current_title) || negb (truthy current_text) then None
  else
    let key := strip current_title in
    if has_char 0x3a key || has_char 0x20 key || existsb isdigit key then None
    else if negb (fullmatch_key key) then None
    else Some (lower key).

(** [list(dict.fromkeys(lines))]: the first occurrence of each element. *)
Fixpoint dedup_from (seen l : list str) : list str :=
  match l with
  | [] => []
  | x :: r =>
    if bool_decide (x ∈ seen) then dedup_from seen r
    else x :: dedup_from (x :: seen) r
  end.

Definition dedup (l : list str) : list str := dedup_from [] l.

Section Handler.
(** Lines 101-127: the candidate sentences found in the page text. *)
Context (extract_lines : str -> list str).

Record WikiHandler := {
  examples : PyDict.dict str (list str);
  pages_with_examples : nat
}.

Definition process_page (current_title current_text : str)
    (self : WikiHandler) : WikiHandler :=
  match candidate_key current_title current_text with
  | None => self
  | Some key =>
    match extract_lines current_text with
    | [] => self
    | lines =>
      let unique_lines := take 1 (dedup lines) in
      {| examples :=
           PyDict.set key
             (default [] (PyDict.get key (examples self)) ++ unique_lines)
             (examples self);
         pages_with_examples := pages_with_examples self + 1 |}
    end
  end.
End Handler.

(** *** merge_and_clean

    The example lists are objects shared between the dictionaries, so they
    live in a heap: a dictionary maps a word to the address of its list. *)

Abbreviation loc := nat (only parsing).
Abbreviation heap := (list (list str)) (only parsing).
Abbreviation exdict := (PyDict.dict str nat) (only parsing).

(** The list stored at an address. *)
Definition deref (h : heap) (l : loc) : list str := default [] (h !! l).

(** What a dictionary holds, read through the heap. *)
Definition view (h : heap) (d : exdict) : PyDict.dict str (list str) :=
  map (fun e => (e.1, deref h e.2)) d.

(** Lines 155-157 for one item [(word, lines)] of a source. *)
Definition merge_item (st : heap * exdict) (item : str * loc) : heap * exdict :=
  let '(h, merged) := st in
  let '(word, lines) := item in
  (* if word not in merged: merged[word] = [] *)
  let '(h, merged) :=
    if PyDict.mem word merged then (h, merged)
    else (h ++ [[]], merged ++ [(word, length h)]) in
  (* merged[word].extend(lines) *)
  match PyDict.get word merged with
  | Some l => (<[l := deref h l ++ deref h lines]> h, merged)
  | None => (h, merged)
  end.

(** Lines 153-157. *)
Definition merge_all (st : heap * exdict) (new_dicts : list exdict) : heap * exdict :=
  fold_left (fun st d => fold_left merge_item d st) new_dicts st.

(** Lines 159-163; the lists of [cleaned] are new objects. *)
Definition clean (h : heap) (merged : exdict) : PyDict.dict str (list str) :=
  map (fun e => (e.1, take 1 (dedup (deref h e.2)))) merged.

(** [merge_and_clean(existing_dict, new_dicts)]: the heap after the call
    and the dictionary that is returned.  [merged = existing_dict.copy()]
    copies the dictionary, not the lists it refers to. *)
Definition merge_and_clean (h : heap) (existing_dict : exdict)
    (new_dicts : list exdict) : heap * PyDict.dict str (list str) :=
  let merged := existing_dict in
  let '(h', merged) := merge_all (h, merged) new_dicts in
  (h', clean h' merged).

End ExamplesStream.

(* ===================================================================== *)
(** ** Vocabulary of the statements *)
(* ===================================================================== *)

Import IndexBuilder.
Import ExamplesStream.

(** [t], at position [i] of the stream, is the first token whose surface
    form is exactly [W]. *)
Definition first_token (lines : list (line MorphToken)) (W : str)
    (i : nat) (t : MorphToken) : Prop :=
  lines !! i = Some (Rec t) /\ form t = W /\
  forall j t', j < i -> lines !! j = Some (Rec t') -> form t' <> W.

(** What the wordform map knows after the lines [lines]. *)
Definition agg_inv (lines : list (line MorphToken))
    (wfs : PyDict.dict str WordformRecord) : Prop :=
  (forall W r, PyDict.get W wfs = Some r ->
     truthy (strip W) = true /\
     exists i t, first_token lines W i t /\
                 wf_lemma r = Some (lemma t) /\ wf_upos r = Some (upos t))
  /\
  (forall j t, lines !! j = Some (Rec t) -> truthy (strip (form t)) = true ->
     is_Some (PyDict.get (form t) wfs)).

(** The size of every reservoir in a wordform map. *)
Definition reservoirs_bounded (wfs : PyDict.dict str WordformRecord) : Prop :=
  forall W r, PyDict.get W wfs = Some r -> size (sentence_ids r) <= 10.

(** [row] is the row written for the item [item] of the wordform map. *)
Definition row_of (item : str * WordformRecord) (row : Row) : Prop :=
  exists example_sentences,
    row = make_row item.1 item.2 example_sentences /\
    1 <= length example_sentences <= 5.

(** The store right after [CREATE TABLE]: no row, no index. *)
Definition fresh_store : Store := {| rows := []; indexes := [] |}.

(** A line that produces no wordform: blank, not JSON, or a token whose
    surface form is blank. *)
Definition contributes_nothing (l : line MorphToken) : bool :=
  match l with
  | Blank | NotJson => true
  | NoField => false
  | Rec t => negb (truthy (strip (form t)))
  end.

(** Every address that is read is allocated, and no list of the
    accumulator is one of them. *)
Definition merge_inv (P : loc -> Prop) (st : heap * exdict) : Prop :=
  (forall l, P l -> l < length st.1) /\
  Forall (fun e => ~ P e.2 /\ e.2 < length st.1) st.2.

(** From [st] to [st']: the accumulator keeps its entries, every list keeps
    its contents as a prefix, and the lists that are only read are unchanged. *)
Definition extends (P : loc -> Prop) (st st' : heap * exdict) : Prop :=
  (forall k l, PyDict.get k st.2 = Some l -> PyDict.get k st'.2 = Some l) /\
  (forall l, exists suf, deref st'.1 l = deref st.1 l ++ suf) /\
  (forall l, P l -> deref st'.1 l = deref st.1 l).

(** A source folded in once more: when every item already has its key in the
    accumulator, with a list that is empty only if the item's list is, the
    accumulator and the heads of all lists stay as they are. *)
Definition saturated (st : heap * exdict) (items : exdict) : Prop :=
  Forall (fun e => exists l, PyDict.get e.1 st.2 = Some l /\
                             (deref st.1 l = [] -> deref st.1 e.2 = [])) items.

(** Every list of the dictionary is allocated in the heap. *)
Definition valid (h : heap) (d : exdict) : Prop :=
  Forall (fun e => e.2 < length h) d.

(** The two dictionaries share no list object. *)
Definition separate (d1 d2 : exdict) : Prop :=
  Forall (fun e1 => Forall (fun e2 => e1.2 <> e2.2) d2) d1.

(** The addresses of the lists of the sources. *)
Definition read_by (new_dicts : list exdict) (l : loc) : Prop :=
  exists d e, d ∈ new_dicts /\ e ∈ d /\ e.2 = l.

(** Every list of the map has at most one element. *)
Definition cleaned (h : heap) (d : exdict) : Prop :=
  Forall (fun e => length (deref h e.2) <= 1) d.

(** The alphabet of accepted keys: A-Z, a-z and U+00C0 to U+017E. *)
Definition in_alphabet (c : Z) : bool :=
  in_range 0x41 0x5a c || in_range 0x61 0x7a c || in_range 0xc0 0x17e c.

(** What holds of every code point of the alphabet. *)
Definition alphabet_ok (c : Z) : bool :=
  implb (in_alphabet c)
    (negb (isspace c) && negb (isdigit c) && negb (c =? 0x3a)%Z
     && bool_decide (lower (lower_cp c) = lower_cp c)).

(* ===================================================================== *)
(** ** Concrete inputs *)
(* ===================================================================== *)

Module Samples.
Import IndexBuilder.

Definition tok (f l u ft s : string) : MorphToken :=
  {| form := py f; lemma := py l; upos := py u; feats := py ft;
     sentence_id := py s |}.

(** Three tokens of the form "sú". *)
Definition su_lines : list (line MorphToken) :=
  [Rec (tok "sú" "byť" "AUX" "Number=Plur" "s1");
   Rec (tok "sú" "byť" "AUX" "Number=Plur" "s2");
   Rec (tok "sú" "byť" "AUX" "Number=Sing" "s3")].

Definition su_record : WordformRecord :=
  {| wf_lemma := Some (py "byť"); wf_upos := Some (py "AUX");
     feats_counter := [(py "Number=Plur", 2); (py "Number=Sing", 1)];
     frequency := 3;
     sentence_ids := {[py "s1"; py "s2"; py "s3"]} |}.

Definition su_state : AggState :=
  {| wordforms := [(py "sú", su_record)]; processed_tokens := 3; warnings := [] |}.

(** A record whose reservoir holds ten sentence ids. *)
Definition full_record : WordformRecord :=
  {| wf_lemma := Some (py "a"); wf_upos := Some (py "CCONJ");
     feats_counter := [([], 10)];
     frequency := 10;
     sentence_ids := list_to_set (map (fun n : nat => [Z.of_nat n]) (seq 48 10)) |}.

Definition full_state : AggState :=
  {| wordforms := [(py "a", full_record)]; processed_tokens := 10; warnings := [] |}.

Definition no_shuffle (g : unit) (l : list str) : unit * list str := (g, l).

Definition no_files : FS :=
  {| db_file := None; export_file := None; stats_file := None |}.

(** A store published by an earlier run. *)
Definition published : FS :=
  {| db_file :=
       Some {| rows := [make_row (py "sú") su_record [py "Kde sú moje kľúče?"]];
               indexes := index_names |};
     export_file := None; stats_file := None |}.

(** The wordform map of a build of two rows. *)
Definition two_words : PyDict.dict str WordformRecord :=
  [(py "dom", update_record (tok "dom" "dom" "NOUN" "Case=Nom" "s1") new_record);
   (py "mačka", update_record (tok "mačka" "mačka" "NOUN" "Case=Nom" "s2") new_record)].

(** A sentence table whose only sentence is blank, and a token in it. *)
Definition blank_sentence : list (line Sentence) :=
  [Rec {| s_id := py "s1"; s_text := py "   " |}].

Definition one_token : list (line MorphToken) :=
  [Rec (tok "a" "a" "CCONJ" "" "s1")].

(** A token stream whose second line is valid JSON without a ["lemma"]. *)
Definition lemma_missing : list (line MorphToken) :=
  [Rec (tok "dom" "dom" "NOUN" "Case=Nom" "s1"); NoField;
   Rec (tok "mačka" "mačka" "NOUN" "Case=Nom" "s2")].

(** A heap of four example lists, an existing map and a source that share
    the key "mačka" but no list, and a map with one example per key. *)
Definition lists : list (list str) :=
  [[py "Mačka spí."]; [py "Pes beží."];
   [py "Mačka spí."; py "Mačka je doma."]; [py "Dom stojí."]].

Definition existing_map : PyDict.dict str nat := [(py "mačka", 0); (py "pes", 1)].

Definition source_map : PyDict.dict str nat := [(py "mačka", 2); (py "dom", 3)].

Definition clean_map : PyDict.dict str nat := [(py "pes", 1); (py "dom", 3)].

(** A token stream that contributes no wordform. *)
Definition nothing_usable : list (line MorphToken) :=
  [NotJson; Blank; Rec (tok "  " "x" "X" "" "s1")].
End Samples.

(* ===================================================================== *)
(** ** Vocabulary of the further properties *)
(* ===================================================================== *)

(** The tokens that reach the record update: lines that parse and whose
    surface form is not blank, in stream order. *)
Definition counted_tokens (lines : list (line MorphToken)) : list MorphToken :=
  flat_map (fun l => match l with
                     | Rec t => if truthy (strip (form t)) then [t] else []
                     | _ => []
                     end) lines.

(** Those of them whose surface form is exactly [W]. *)
Definition tokens_of (W : str) (lines : list (line MorphToken)) : list MorphToken :=
  filter (fun t => form t = W) (counted_tokens lines).

(** The record built from the tokens of one wordform, taken in order. *)
Definition record_of (ts : list MorphToken) : WordformRecord :=
  fold_left (fun r t => update_record t r) ts new_record.




(** The pool [select_example_sentences] chooses from: the stripped texts that
    pass the filter, or, when none does, the first text that resolves. *)
Definition example_pool (ids : list str) (sentences : gmap str str) : list str :=
  match filter_available ids sentences with
  | [] => first_available ids sentences
  | _ :: _ => filter_available ids sentences
  end.





Module MoreSamples.


(** One sentence that passes the filter, and the reservoir that holds it. *)
Definition cat_sentences : gmap str str := {[py "s1" := py "Mačka spí na gauči."]}.

Definition cat_ids : gset str := {[py "s1"]}.

End MoreSamples.

(* ===================================================================== *)
(** ** src/build_examples_stream.py: the SAX handler *)
(* ===================================================================== *)

Module Sax.

(** The calls the XML parser makes on the handler. *)
Inductive sax_event :=
| StartElement (name : str)
| EndElement (name : str)
| Characters (content : str).

(** The handler during a parse: the example map and the page counter of
    [WikiHandler] ([handler]) with the other fields of the object. *)
Record ParserState := {
  handler : WikiHandler;
  current_title : str;
  current_text : str;
  in_title : bool;
  in_text : bool;
  total_pages : nat
}.

(** [WikiHandler.__init__] *)
Definition init : ParserState :=
  {| handler := {| examples := []; pages_with_examples := 0 |};
     current_title := []; current_text := [];
     in_title := false; in_text := false; total_pages := 0 |}.

Definition startElement (name : str) (self : ParserState) : ParserState :=
  if bool_decide (name = py "title") then
    {| handler := handler self; current_title := []; current_text := current_text self;
       in_title := true; in_text := in_text self; total_pages := total_pages self |}
  else if bool_decide (name = py "text") then
    {| handler := handler self; current_title := current_title self; current_text := [];
       in_title := in_title self; in_text := true; total_pages := total_pages self |}
  else self.

Definition characters (content : str) (self : ParserState) : ParserState :=
  if in_title self then
    {| handler := handler self; current_title := current_title self ++ content;
       current_text := current_text self;
       in_title := in_title self; in_text := in_text self;
       total_pages := total_pages self |}
  else if in_text self then
    {| handler := handler self; current_title := current_title self;
       current_text := current_text self ++ content;
       in_title := in_title self; in_text := in_text self;
       total_pages := total_pages self |}
  else self.

Section Parse.
(** Lines 101-127, as in [process_page]. *)
Context (extract_lines : str -> list str).

Definition endElement (name : str) (self : ParserState) : ParserState :=
  if bool_decide (name = py "title") then
    {| handler := handler self; current_title := current_title self;
       current_text := current_text self;
       in_title := false; in_text := in_text self; total_pages := total_pages self |}
  else if bool_decide (name = py "text") then
    {| handler := handler self; current_title := current_title self;
       current_text := current_text self;
       in_title := in_title self; in_text := false; total_pages := total_pages self |}
  else if bool_decide (name = py "page") then
    (* self.total_pages += 1; self.process_page() *)
    {| handler := process_page extract_lines (current_title self) (current_text self)
                    (handler self);
       current_title := current_title self; current_text := current_text self;
       in_title := in_title self; in_text := in_text self;
       total_pages := total_pages self + 1 |}
  else self.

Definition handle (self : ParserState) (ev : sax_event) : ParserState :=
  match ev with
  | StartElement name => startElement name self
  | EndElement name => endElement name self
  | Characters content => characters content self
  end.

(** [parser.parse(f)] on a document whose events are [events]. *)
Definition parse (events : list sax_event) (self : ParserState) : ParserState :=
  fold_left handle events self.

(** [parse_dump_streaming(file_name)], on the events of the dump. *)
Definition parse_dump_streaming (events : list sax_event) : PyDict.dict str (list str) :=
  examples (handler (parse events init)).
End Parse.






End Sax.

(** What the example map of a handler satisfies at all times. *)
Definition examples_wf (h : WikiHandler) : Prop :=
  NoDup (PyDict.keys (examples h)) /\
  Forall (fun e => e.2 <> [] /\ lower e.1 = e.1) (examples h) /\
  pages_with_examples h = sum_list (map (fun e => length e.2) (examples h)).

(** The examples a map holds for a key, [[]] when it has none. *)
Definition examples_at (h : heap) (d : exdict) (k : str) : list str :=
  default [] (deref h <$> PyDict.get k d).

(** All examples of a key: those of the existing map, then those of each
    source in turn. *)
Definition all_examples (h : heap) (existing : exdict) (new_dicts : list exdict)
    (k : str) : list str :=
  examples_at h existing k ++ flat_map (fun d => examples_at h d k) new_dicts.

(** All keys, each once, those of the existing map first. *)
Definition all_keys (existing : exdict) (new_dicts : list exdict) : list str :=
  dedup (PyDict.keys existing ++ flat_map PyDict.keys new_dicts).

(** The examples the items of a source list carry for a key. *)
Definition item_examples (h : heap) (items : list (str * loc)) (k : str) : list str :=
  flat_map (fun it => if decide (it.1 = k) then deref h it.2 else []) items.

(** Each key of the map once, each with a list object of its own. *)
Definition own_lists (d : exdict) : Prop :=
  NoDup (PyDict.keys d) /\ NoDup (map snd d).

(* ===================================================================== *)
(** ** Reading the literals *)
(* ===================================================================== *)

Example py_su : py "sú" = [115; 250]%Z.
Proof. reflexivity. Qed.
Example py_macka : py "mačka" = [109; 97; 269; 107; 97]%Z.
Proof. reflexivity. Qed.
Example lower_M : lower (py "Mačka") = py "mačka".
Proof. reflexivity. Qed.
Example strip_ex : strip (py "  a b  ") = py "a b".
Proof. reflexivity. Qed.

(* ===================================================================== *)
(** ** Facts about dictionaries, counters and the reading loop *)
(* ===================================================================== *)

Section DictFacts.
Context {K : Type} `{EqDecision K} {V : Type}.
Implicit Types (d : PyDict.dict K V) (k : K) (v : V).

Lemma dict_get_set_eq k v d : PyDict.get k (PyDict.set k v d) = Some v.
Proof.
  induction d as [|[k' v'] d IH]; simpl.
  - by rewrite decide_True.
  - destruct (decide (k = k')) as [->|Hne]; simpl.
    + by rewrite decide_True.
    + by rewrite decide_False.
Qed.

Lemma dict_get_set_ne k k' v d :
  k ≠ k' -> PyDict.get k' (PyDict.set k v d) = PyDict.get k' d.
Proof.
  intros Hne. induction d as [|[k0 v0] d IH]; simpl.
  - by rewrite decide_False.
  - destruct (decide (k = k0)) as [->|Hk]; simpl.
    + by rewrite !decide_False.
    + destruct (decide (k' = k0)); done.
Qed.

Lemma dict_get_elem k v d : PyDict.get k d = Some v -> (k, v) ∈ d.
Proof.
  induction d as [|[k0 v0] d IH]; simpl; [done|].
  destruct (decide (k = k0)) as [->|Hk].
  - intros [= ->]. left.
  - intros Hg. right. by apply IH.
Qed.

Lemma dict_get_app_l k v d d' :
  PyDict.get k d = Some v -> PyDict.get k (d ++ d') = Some v.
Proof.
  induction d as [|[k0 v0] d IH]; simpl; [done|].
  destruct (decide (k = k0)); [done|]. apply IH.
Qed.

Lemma dict_get_app_r k d d' :
  PyDict.get k d = None -> PyDict.get k (d ++ d') = PyDict.get k d'.
Proof.
  induction d as [|[k0 v0] d IH]; simpl; [done|].
  destruct (decide (k = k0)); [done|]. apply IH.
Qed.

Lemma dict_get_None k d : PyDict.get k d = None -> k ∉ PyDict.keys d.
Proof.
  induction d as [|[k0 v0] d IH]; simpl.
  - intros _. apply not_elem_of_nil.
  - destruct (decide (k = k0)); [done|].
    intros Hg. apply not_elem_of_cons. split; [done|]. by apply IH.
Qed.

Lemma dict_get_Some_key k v d : PyDict.get k d = Some v -> k ∈ PyDict.keys d.
Proof.
  intros Hg. apply dict_get_elem in Hg.
  apply (list_elem_of_fmap_2 fst) in Hg. exact Hg.
Qed.

Lemma dict_key_get k d : k ∈ PyDict.keys d -> is_Some (PyDict.get k d).
Proof.
  destruct (PyDict.get k d) eqn:Hg; [eauto|].
  intros Hin. by apply dict_get_None in Hg.
Qed.
End DictFacts.

Section LoopFacts.
Context {A S : Type} (body : nat -> line A -> S -> result S).

Lemma for_lines_app n l1 l2 st :
  for_lines body n (l1 ++ l2) st =
  bind (for_lines body n l1 st) (for_lines body (n + length l1) l2).
Proof.
  revert n st. induction l1 as [|l l1 IH]; intros n st; simpl.
  - by rewrite Nat.add_0_r.
  - destruct (body n l st) as [st'|e]; simpl; [|done].
    rewrite IH. by replace (Datatypes.S n + length l1) with (n + Datatypes.S (length l1)) by lia.
Qed.

Lemma for_lines_snoc n ls l st :
  for_lines body n (ls ++ [l]) st =
  bind (for_lines body n ls st) (body (n + length ls) l).
Proof.
  rewrite for_lines_app. destruct (for_lines body n ls st); simpl; [|done].
  by destruct (body _ l a).
Qed.
End LoopFacts.

(* ===================================================================== *)
(** ** The morphology aggregator *)
(* ===================================================================== *)

Section AggregatorFacts.
Import IndexBuilder.

Lemma first_token_snoc lines l W i t :
  first_token lines W i t -> first_token (lines ++ [l]) W i t.
Proof.
  intros (Hi & Hf & Hfirst). pose proof (lookup_lt_Some _ _ _ Hi) as Hlt.
  split; [by rewrite lookup_app_l|]. split; [done|].
  intros j t' Hj Hl. apply (Hfirst j t' Hj).
  by rewrite lookup_app_l in Hl by lia.
Qed.

Lemma agg_inv_skip lines l wfs :
  (forall t, l = Rec t -> truthy (strip (form t)) = false) ->
  agg_inv lines wfs -> agg_inv (lines ++ [l]) wfs.
Proof.
  intros Hl [Ha Hb]. split.
  - intros W r Hg. destruct (Ha W r Hg) as (Hw & i & t & Hft & Hlem & Hup).
    split; [done|]. exists i, t. eauto using first_token_snoc.
  - intros j t Hj Ht.
    destruct (decide (j < length lines)) as [Hlt|Hge].
    + rewrite lookup_app_l in Hj by done. eauto.
    + rewrite lookup_app_r in Hj by lia.
      destruct (j - length lines) as [|k]; simpl in Hj; [|done].
      injection Hj as ->. rewrite (Hl t eq_refl) in Ht. done.
Qed.

Lemma agg_inv_token lines t wfs :
  truthy (strip (form t)) = true ->
  agg_inv lines wfs -> agg_inv (lines ++ [Rec t]) (add_token t wfs).
Proof.
  intros Hne [Ha Hb]. unfold add_token. split.
  - intros W r Hg. destruct (decide (form t = W)) as [<-|HW].
    + rewrite dict_get_set_eq in Hg. injection Hg as <-.
      split; [done|].
      destruct (PyDict.get (form t) wfs) as [r0|] eqn:Hold; simpl.
      * destruct (Ha _ _ Hold) as (_ & i & t0 & Hft & Hlem & Hup).
        exists i, t0. split; [by apply first_token_snoc|].
        by rewrite Hlem.
      * exists (length lines), t. split; [|done].
        split; [by rewrite list_lookup_middle|]. split; [done|].
        intros j t' Hj Hl Hform. rewrite lookup_app_l in Hl by done.
        destruct (Hb j t' Hl) as [r' Hr']; [by rewrite Hform|].
        rewrite Hform in Hr'. congruence.
    + rewrite dict_get_set_ne in Hg by done.
      destruct (Ha W r Hg) as (Hw & i & t0 & Hft & Hlem & Hup).
      split; [done|]. exists i, t0. eauto using first_token_snoc.
  - intros j t' Hj Ht'.
    destruct (decide (form t = form t')) as [Heq|Hdiff].
    + rewrite <- Heq, dict_get_set_eq. eauto.
    + rewrite dict_get_set_ne by done.
      destruct (decide (j < length lines)) as [Hlt|Hge].
      * rewrite lookup_app_l in Hj by done. eauto.
      * rewrite lookup_app_r in Hj by lia.
        destruct (j - length lines) as [|k]; simpl in Hj; [|done].
        injection Hj as ->. done.
Qed.

Lemma aggregate_inv lines st :
  aggregate lines = Ok st -> agg_inv lines (wordforms st).
Proof.
  revert st. induction lines as [|l lines IH] using rev_ind; intros st.
  - intros [= <-]. split; [done|]. intros j t Hj. done.
  - unfold aggregate. rewrite for_lines_snoc.
    fold (aggregate lines). destruct (aggregate lines) as [st0|e]; [|done].
    simpl. specialize (IH st0 eq_refl).
    destruct l as [| | |t]; simpl.
    + intros [= <-]. by apply agg_inv_skip.
    + intros [= <-]. by apply agg_inv_skip.
    + done.
    + destruct (truthy (strip (form t))) eqn:Hne; simpl.
      * intros [= <-]. simpl. by apply agg_inv_token.
      * intros [= <-]. apply agg_inv_skip; [|done].
        intros t' [= <-]. done.
Qed.

Lemma update_record_bounded t r :
  size (sentence_ids r) <= 10 -> size (sentence_ids (update_record t r)) <= 10.
Proof.
  intros Hr. simpl. destruct (size (sentence_ids r) <? 10) eqn:Hlt; [|done].
  apply Nat.ltb_lt in Hlt.
  rewrite size_union_alt, size_singleton.
  assert (size (sentence_ids r ∖ {[sentence_id t]}) <= size (sentence_ids r))
    as Hsub by (apply subseteq_size, subseteq_difference_l; done).
  lia.
Qed.

Lemma morph_line_bounded n l st st' :
  morph_line n l st = Ok st' ->
  reservoirs_bounded (wordforms st) -> reservoirs_bounded (wordforms st').
Proof.
  destruct l as [| | |t]; simpl.
  1, 2: by intros [= <-].
  1: done.
  destruct (truthy (strip (form t))); simpl; intros [= <-]; [|done].
  intros Hb W r. simpl. unfold add_token.
  destruct (decide (form t = W)) as [<-|HW].
  - rewrite dict_get_set_eq. intros [= <-]. apply update_record_bounded.
    destruct (PyDict.get (form t) (wordforms st)) eqn:Hg; [simpl; eauto|].
    change (size (∅ : gset str) <= 10). rewrite size_empty. lia.
  - rewrite dict_get_set_ne by done. apply Hb.
Qed.

Lemma for_lines_bounded n lines st st' :
  for_lines morph_line n lines st = Ok st' ->
  reservoirs_bounded (wordforms st) -> reservoirs_bounded (wordforms st').
Proof.
  revert n st. induction lines as [|l lines IH]; intros n st; simpl.
  - by intros [= <-].
  - destruct (morph_line n l st) as [st1|e] eqn:Hl; [|done].
    intros Hrun Hb. eapply IH; [exact Hrun|]. eauto using morph_line_bounded.
Qed.
End AggregatorFacts.

(* ===================================================================== *)
(** ** The most frequent feature string and the prepared rows *)
(* ===================================================================== *)

Section CounterFacts.
Context {K : Type} `{EqDecision K}.

End CounterFacts.

Section RowFacts.
Import IndexBuilder.
Context {rng : Type} (shuffle : rng -> list str -> rng * list str).
Context (set_iter : gset str -> list str).

Lemma fill_length_ge max_examples selected stack :
  length selected <= length (fill max_examples selected stack).
Proof.
  revert selected. induction stack as [|x stack IH]; intros selected; simpl; [done|].
  destruct (length selected <? max_examples); [|done].
  etransitivity; [|apply IH]. rewrite length_app. simpl. lia.
Qed.

Lemma select_length sentence_ids sentences max_examples g :
  length (select_example_sentences shuffle set_iter sentence_ids sentences
            max_examples g).2 <= max_examples.
Proof.
  unfold select_example_sentences.
  set (available := match filter_available _ _ with [] => _ | _ => _ end).
  destruct (length available <=? max_examples) eqn:Hle; simpl.
  - by apply Nat.leb_le.
  - destruct (shuffle g _) as [g' remaining]. simpl.
    rewrite length_take. lia.
Qed.

(** The examples of a row: between one and five of them. *)
Lemma examples_for_length wordform data sentences g :
  1 <= length (examples_for shuffle set_iter wordform data sentences g).2 <= 5.
Proof.
  unfold examples_for.
  pose proof (select_length (sentence_ids data) sentences 5 g) as Hle.
  destruct (select_example_sentences _ _ _ _ _ _) as [g' ex]. simpl in Hle.
  destruct ex as [|e ex]; simpl in *; lia.
Qed.

Lemma prepare_fold items sentences g insert_data stats :
  exists g' new_rows stats',
    fold_left (prepare shuffle set_iter sentences) items (g, insert_data, stats)
      = (g', insert_data ++ new_rows, stats') /\
    Forall2 row_of items new_rows /\
    acc_total_wordforms stats' = acc_total_wordforms stats + length items.
Proof.
  revert g insert_data stats.
  induction items as [|[wordform data] items IH]; intros g insert_data stats; simpl.
  - exists g, [], stats. rewrite app_nil_r. repeat split; [constructor|lia].
  - pose proof (examples_for_length wordform data sentences g) as Hlen.
    destruct (examples_for _ _ wordform data sentences g) as [g1 ex] eqn:Hex.
    simpl in Hlen.
    edestruct IH as (g' & new_rows & stats' & Hfold & Hrows & Htotal).
    rewrite Hfold. eexists g', (_ :: new_rows), stats'.
    rewrite <- app_assoc. simpl. split; [reflexivity|]. split.
    + constructor; [|done]. exists ex. done.
    + rewrite Htotal. simpl. lia.
Qed.

Lemma prepare_all_rows wordforms_data sentences g :
  exists g' insert_data stats,
    prepare_all shuffle set_iter wordforms_data sentences g
      = (g', insert_data, stats) /\
    Forall2 row_of wordforms_data insert_data /\
    acc_total_wordforms stats = length wordforms_data.
Proof.
  unfold prepare_all.
  destruct (prepare_fold wordforms_data sentences g [] stats_init)
    as (g' & new_rows & stats' & Hfold & Hrows & Htotal).
  exists g', new_rows, stats'. done.
Qed.
End RowFacts.

(* ===================================================================== *)
(** ** The aggregator: first seen wins, bounded reservoir *)
(* ===================================================================== *)

Section AggregatorClaims.
Import IndexBuilder.

Lemma first_token_app lines more W i t :
  first_token lines W i t -> first_token (lines ++ more) W i t.
Proof.
  intros (Hi & Hf & Hfirst). pose proof (lookup_lt_Some _ _ _ Hi) as Hlt.
  split; [by rewrite lookup_app_l|]. split; [done|].
  intros j t' Hj Hl. apply (Hfirst j t' Hj).
  by rewrite lookup_app_l in Hl by lia.
Qed.

Lemma first_token_unique lines W i t i' t' :
  first_token lines W i t -> first_token lines W i' t' -> i = i' /\ t = t'.
Proof.
  intros (Hi & Hf & Hfirst) (Hi' & Hf' & Hfirst').
  assert (i = i') as <-.
  { destruct (Nat.lt_trichotomy i i') as [Hlt|[->|Hgt]]; [|done|].
    - by destruct (Hfirst' i t Hlt Hi).
    - by destruct (Hfirst i' t' Hgt Hi'). }
  split; [done|]. congruence.
Qed.

(** C3. For every wordform W of the map the aggregator returns, the stored
    lemma and part of speech are those of the first token of the stream whose
    surface form is exactly W (a form that is not blank), and whatever tokens
    follow, the record of W keeps this lemma and this part of speech. *)
Theorem first_seen_wins (lines : list (line MorphToken)) (st : AggState)
    (W : str) (r : WordformRecord) :
  aggregate lines = Ok st ->
  PyDict.get W (wordforms st) = Some r ->
  exists i t,
    first_token lines W i t /\ truthy (strip W) = true /\
    wf_lemma r = Some (lemma t) /\ wf_upos r = Some (upos t) /\
    forall more st', aggregate (lines ++ more) = Ok st' ->
      exists r', PyDict.get W (wordforms st') = Some r' /\
                 wf_lemma r' = wf_lemma r /\ wf_upos r' = wf_upos r.
Proof.
  intros Hrun Hget.
  destruct (aggregate_inv lines st Hrun) as [Ha _].
  destruct (Ha W r Hget) as (Hne & i & t & Hft & Hlem & Hup).
  exists i, t. repeat (split; [done|]).
  intros more st' Hrun'.
  destruct (aggregate_inv _ _ Hrun') as [Ha' Hb'].
  pose proof (first_token_app lines more W i t Hft) as Hft'.
  destruct Hft' as (Hi' & Hf' & Hfirst').
  destruct (Hb' i t Hi') as [r' Hr']; [by rewrite Hf'|].
  rewrite Hf' in Hr'. exists r'. split; [done|].
  destruct (Ha' W r' Hr') as (_ & i2 & t2 & Hft2 & Hlem2 & Hup2).
  destruct (first_token_unique (lines ++ more) W i t i2 t2) as [_ <-]; [done..|].
  by rewrite Hlem, Hup.
Qed.

Lemma first_seen_wins_witness :
  exists i t,
    first_token Samples.su_lines (py "sú") i t /\ truthy (strip (py "sú")) = true /\
    wf_lemma Samples.su_record = Some (lemma t) /\
    wf_upos Samples.su_record = Some (upos t) /\
    forall more st', aggregate (Samples.su_lines ++ more) = Ok st' ->
      exists r', PyDict.get (py "sú") (wordforms st') = Some r' /\
                 wf_lemma r' = wf_lemma Samples.su_record /\
                 wf_upos r' = wf_upos Samples.su_record.
Proof.
  apply (first_seen_wins Samples.su_lines Samples.su_state (py "sú") Samples.su_record).
  - vm_compute. reflexivity.
  - vm_compute. reflexivity.
Defined.

(** C4. At every point of the aggregation (after any number [k] of lines)
    every reservoir holds at most ten sentence ids; and a token for a
    wordform whose reservoir holds ten ids leaves the reservoir as it is
    while the frequency still goes up by one. *)
Theorem reservoir_capped :
  (forall (lines : list (line MorphToken)) (k : nat) (st : AggState),
     aggregate (take k lines) = Ok st ->
     forall W r, PyDict.get W (wordforms st) = Some r ->
       size (sentence_ids r) <= 10)
  /\
  (forall (n : nat) (t : MorphToken) (st : AggState) (r : WordformRecord),
     truthy (strip (form t)) = true ->
     PyDict.get (form t) (wordforms st) = Some r ->
     size (sentence_ids r) = 10 ->
     exists st' r',
       morph_line n (Rec t) st = Ok st' /\
       PyDict.get (form t) (wordforms st') = Some r' /\
       sentence_ids r' = sentence_ids r /\
       frequency r' = frequency r + 1).
Proof.
  split.
  - intros lines k st Hrun.
    apply (for_lines_bounded 1 (take k lines) agg_init st Hrun).
    intros W r Hg. done.
  - intros n t st r Hne Hget Hfull. simpl. rewrite Hne. simpl.
    eexists _, _. split; [reflexivity|]. simpl. unfold add_token.
    rewrite dict_get_set_eq, Hget. split; [reflexivity|]. simpl.
    rewrite Hfull. simpl. split; [done|lia].
Qed.

Lemma reservoir_capped_witness :
  (forall W r, PyDict.get W (wordforms Samples.su_state) = Some r ->
     size (sentence_ids r) <= 10)
  /\
  (exists st' r',
     morph_line 11 (Rec (Samples.tok "a" "a" "CCONJ" "" "s99")) Samples.full_state = Ok st' /\
     PyDict.get (py "a") (wordforms st') = Some r' /\
     sentence_ids r' = sentence_ids Samples.full_record /\
     frequency r' = frequency Samples.full_record + 1).
Proof.
  split.
  - apply (proj1 reservoir_capped Samples.su_lines 3 Samples.su_state).
    vm_compute. reflexivity.
  - apply (proj2 reservoir_capped 11 (Samples.tok "a" "a" "CCONJ" "" "s99")
             Samples.full_state Samples.full_record).
    + vm_compute. reflexivity.
    + vm_compute. reflexivity.
    + vm_compute. reflexivity.
Defined.
End AggregatorClaims.

(* ===================================================================== *)
(** ** The index builder *)
(* ===================================================================== *)

Section BuilderClaims.
Import IndexBuilder.



Lemma executemany_ok fault i insert_data txn res :
  executemany fault i insert_data txn = Ok res -> res = txn ++ insert_data.
Proof.
  revert i txn. induction insert_data as [|r rest IH]; intros i txn; simpl.
  - intros [= <-]. by rewrite app_nil_r.
  - destruct (decide (fault = Some i)); [done|].
    destruct (not_null_ok r); simpl; [|done].
    intros Hrun. rewrite (IH _ _ Hrun), <- app_assoc. done.
Qed.

Lemma executemany_fault n i insert_data txn :
  i <= n < i + length insert_data ->
  is_ok (executemany (Some n) i insert_data txn) = false.
Proof.
  revert i txn. induction insert_data as [|r rest IH]; intros i txn; simpl.
  - lia.
  - intros Hn. destruct (decide (Some n = Some i)) as [|Hne]; [done|].
    destruct (not_null_ok r); simpl; [|done].
    apply IH. assert (n <> i) by congruence. lia.
Qed.

(** C1, as the code has it.  Every call first discards the store that was
    there; the rows of the build are committed together or not at all, so
    the call leaves either the fresh empty store (and an exception) or the
    store with all prepared rows; and when the insertion fails after [n] of
    the rows, it leaves the fresh empty store whatever the previous store
    was.  The export and the statistics files are not touched. *)
Theorem rebuild_commits_all_or_nothing
    (rng : Type) (shuffle : rng -> list str -> rng * list str)
    (set_iter : gset str -> list str) (fault : option nat)
    (wordforms_data : PyDict.dict str WordformRecord)
    (sentences : gmap str str) (g : rng) (fs : FS) :
  let run := create_sqlite_database shuffle set_iter fault wordforms_data sentences g fs in
  let insert_data := (prepare_all shuffle set_iter wordforms_data sentences g).1.2 in
  export_file run.1.1 = export_file fs /\
  stats_file run.1.1 = stats_file fs /\
  length insert_data = length wordforms_data /\
  ((db_file run.1.1 = Some fresh_store /\ is_ok run.2 = false) \/
   db_file run.1.1 = Some {| rows := insert_data; indexes := index_names |}) /\
  (forall n, fault = Some n -> n < length wordforms_data ->
     db_file run.1.1 = Some fresh_store /\ is_ok run.2 = false).
Proof.
  intros run insert_data. subst run insert_data.
  unfold create_sqlite_database.
  destruct (prepare_all_rows shuffle set_iter wordforms_data sentences g)
    as (g' & insert_data & stats & -> & Hrows & Htotal). simpl.
  apply Forall2_length in Hrows.
  destruct (executemany fault 0 insert_data []) as [txn|e] eqn:Hexec; simpl.
  - pose proof (executemany_ok _ _ _ _ _ Hexec) as Hres. simpl in Hres.
    repeat (split; [done|]). split; [right; by rewrite Hres|].
    intros n -> Hn.
    pose proof (executemany_fault n 0 insert_data []) as Hf.
    rewrite Hexec in Hf. simpl in Hf. discriminate Hf. lia.
  - repeat (split; [done|]). split; [by left|]. done.
Qed.

Lemma rebuild_commits_all_or_nothing_witness :
  db_file (create_sqlite_database Samples.no_shuffle elements (Some 1)
             Samples.two_words ∅ tt Samples.published).1.1 = Some fresh_store /\
  is_ok (create_sqlite_database Samples.no_shuffle elements (Some 1)
           Samples.two_words ∅ tt Samples.published).2 = false.
Proof.
  destruct (rebuild_commits_all_or_nothing unit Samples.no_shuffle elements
              (Some 1) Samples.two_words ∅ tt Samples.published)
    as (_ & _ & _ & _ & Hfault).
  apply (Hfault 1).
  - reflexivity.
  - vm_compute. lia.
Defined.

(** C1 as stated fails: a build of two rows whose insertion fails after the
    first row does not leave the previously published store in place. *)
Lemma rebuild_failure_loses_published_store :
  is_ok (create_sqlite_database Samples.no_shuffle elements (Some 1)
           Samples.two_words ∅ tt Samples.published).2 = false /\
  db_file (create_sqlite_database Samples.no_shuffle elements (Some 1)
             Samples.two_words ∅ tt Samples.published).1.1
  <> db_file Samples.published.
Proof. vm_compute. split; [reflexivity|discriminate]. Qed.

Lemma for_lines_nothing n lines st :
  forallb contributes_nothing lines = true ->
  exists st', for_lines morph_line n lines st = Ok st' /\
              wordforms st' = wordforms st.
Proof.
  revert n st. induction lines as [|l lines IH]; intros n st; simpl.
  - eauto.
  - intros [Hl Hrest]%andb_true_iff.
    destruct l as [| | |t]; simpl in *; try done.
    + apply IH. done.
    + edestruct IH as (st' & Hrun & Hw); [exact Hrest|].
      exists st'. split; [exact Hrun|exact Hw].
    + rewrite Hl. simpl. apply IH. done.
Qed.

(** C10. On an empty wordform map [create_sqlite_database] replaces whatever
    store there was by a committed store without rows and then raises
    [ZeroDivisionError]; a stream in which every line is blank, not JSON or
    a token with a blank form gives the empty map; and then [main] ends in
    its exception handler, leaving that empty store and no new export or
    statistics file. *)
Theorem empty_map_divides_by_zero :
  (forall (rng : Type) (shuffle : rng -> list str -> rng * list str)
          (set_iter : gset str -> list str) (fault : option nat)
          (sentences : gmap str str) (g : rng) (fs : FS),
     create_sqlite_database shuffle set_iter fault [] sentences g fs
     = (with_db fs (Some {| rows := []; indexes := index_names |}), g,
        Raise ZeroDivisionError))
  /\
  (forall (mlines : list (line MorphToken)) (sentences : gmap str str),
     forallb contributes_nothing mlines = true ->
     process_morphology_data mlines sentences = Ok [])
  /\
  (forall (rng : Type) (shuffle : rng -> list str -> rng * list str)
          (set_iter : gset str -> list str) (fault : option nat) (g : rng)
          (fs : FS) (slines : list (line Sentence))
          (mlines : list (line MorphToken)) (ld : LoadState),
     load_sentences slines = Ok ld ->
     process_morphology_data mlines (sentences_of ld) = Ok [] ->
     main shuffle set_iter (Some slines) (Some mlines) fault g fs
     = ({| db_file := Some {| rows := []; indexes := index_names |};
           export_file := export_file fs;
           stats_file := stats_file fs |},
        Failed ZeroDivisionError)).
Proof.
  split; [|split].
  - intros. reflexivity.
  - intros mlines sentences Hall. unfold process_morphology_data, aggregate.
    destruct (for_lines_nothing 1 mlines agg_init Hall) as (st' & -> & Hw).
    simpl. by rewrite Hw.
  - intros rng shuffle set_iter fault g fs slines mlines ld Hload Hagg.
    unfold main. rewrite Hload, Hagg. reflexivity.
Qed.

Lemma empty_map_divides_by_zero_witness :
  main Samples.no_shuffle elements (Some []) (Some Samples.nothing_usable)
       None tt Samples.published
  = ({| db_file := Some {| rows := []; indexes := index_names |};
        export_file := None; stats_file := None |},
     Failed ZeroDivisionError).
Proof.
  apply (proj2 (proj2 empty_map_divides_by_zero) unit Samples.no_shuffle elements
           None tt Samples.published [] Samples.nothing_usable
           {| sentences_of := ∅; load_warnings := [] |}).
  - reflexivity.
  - apply (proj1 (proj2 empty_map_divides_by_zero)). reflexivity.
Defined.

(** The placeholder is never the empty string, and it is what a row gets
    when the selector returns the empty list. *)
Lemma placeholder_nonempty wordform : 0 < length (placeholder wordform).
Proof. unfold placeholder. rewrite length_app. simpl. lia. Qed.

Lemma placeholder_substituted (rng : Type)
    (shuffle : rng -> list str -> rng * list str) (set_iter : gset str -> list str)
    wordform data sentences g :
  (select_example_sentences shuffle set_iter (sentence_ids data) sentences 5 g).2 = [] ->
  (examples_for shuffle set_iter wordform data sentences g).2 = [placeholder wordform].
Proof.
  unfold examples_for.
  destruct (select_example_sentences _ _ _ _ _ _) as [g' ex]. simpl.
  by intros ->.
Qed.

(** Two feature strings seen once each: the one seen first is reported. *)
Example tie_goes_to_first_inserted :
  most_common_feats
    (update_record (Samples.tok "sú" "byť" "AUX" "Number=Sing" "s2")
       (update_record (Samples.tok "sú" "byť" "AUX" "Number=Plur" "s1") new_record))
  = py "Number=Plur".
Proof. reflexivity. Qed.

(** C2 at the failing input: the only sentence of the wordform is blank, the
    selector falls back to it and returns the one-element list holding the
    empty string, no placeholder is substituted, and the row is stored with
    an empty example. *)
Theorem blank_sentence_stored_as_example :
  select_example_sentences Samples.no_shuffle elements {[py "s1"]}
    {[py "s1" := py "   "]} 5 tt = (tt, [[]]) /\
  exists row store,
    db_file (main Samples.no_shuffle elements (Some Samples.blank_sentence)
               (Some Samples.one_token) None tt Samples.no_files).1 = Some store /\
    rows store = [row] /\ r_wordform row = py "a" /\ r_sentences row = [[]].
Proof. split; [by vm_compute|]. eexists _, _. vm_compute. done. Qed.

(** C8 at the failing input: the second line parses as JSON but has no
    ["lemma"]; the [KeyError] leaves the aggregation loop, no wordform map is
    returned, and [main] ends in its exception handler without a store. *)
Theorem missing_field_aborts_run :
  aggregate Samples.lemma_missing = Raise KeyError /\
  main Samples.no_shuffle elements (Some []) (Some Samples.lemma_missing)
       None tt Samples.no_files
  = (Samples.no_files, Failed KeyError).
Proof. split; reflexivity. Qed.

(** What the loop does with a line that is not JSON: it records the line
    number and goes on with the next line, the wordforms untouched. *)
Lemma not_json_line_skipped n pre post st st' :
  for_lines morph_line n pre st = Ok st' ->
  for_lines morph_line n (pre ++ NotJson :: post) st
  = for_lines morph_line (S (n + length pre)) post
      {| wordforms := wordforms st';
         processed_tokens := processed_tokens st';
         warnings := warnings st' ++ [n + length pre] |}.
Proof. intros Hpre. rewrite for_lines_app, Hpre. reflexivity. Qed.

(** A line that parses but lacks a field ends the loop, wherever it stands. *)
Lemma no_field_line_raises n pre post st st' :
  for_lines morph_line n pre st = Ok st' ->
  for_lines morph_line n (pre ++ NoField :: post) st = Raise KeyError.
Proof. intros Hpre. rewrite for_lines_app, Hpre. reflexivity. Qed.
End BuilderClaims.

(* ===================================================================== *)
(** ** The merge of example maps *)
(* ===================================================================== *)

Section HeapFacts.
Import ExamplesStream.
Implicit Types (h : heap) (l : loc).

Lemma deref_insert_eq h l v : l < length h -> deref (<[l := v]> h) l = v.
Proof. intros Hl. unfold deref. by rewrite list_lookup_insert_eq. Qed.

Lemma deref_insert_ne h l l' v : l <> l' -> deref (<[l := v]> h) l' = deref h l'.
Proof. intros Hl. unfold deref. by rewrite list_lookup_insert_ne. Qed.

Lemma deref_app_lt h h' l : l < length h -> deref (h ++ h') l = deref h l.
Proof. intros Hl. unfold deref. by rewrite lookup_app_l. Qed.

Lemma deref_ge h l : length h <= l -> deref h l = [].
Proof. intros Hl. unfold deref. by rewrite lookup_ge_None_2. Qed.

Lemma deref_app_new h v : deref (h ++ [v]) (length h) = v.
Proof. unfold deref. by rewrite list_lookup_middle. Qed.

Lemma dict_mem_get (word : str) (d : exdict) :
  PyDict.mem word d = true -> exists l, PyDict.get word d = Some l.
Proof. unfold PyDict.mem. destruct (PyDict.get word d); [eauto|done]. Qed.

Lemma dict_mem_false (word : str) (d : exdict) :
  PyDict.mem word d = false -> PyDict.get word d = None.
Proof. unfold PyDict.mem. by destruct (PyDict.get word d). Qed.

Lemma get_view h (d : exdict) k :
  PyDict.get k (view h d) = deref h <$> PyDict.get k d.
Proof.
  induction d as [|[k' l'] d IH]; simpl; [done|].
  destruct (decide (k = k')); done.
Qed.

Lemma dedup_from_head seen x r :
  x ∉ seen -> exists r', dedup_from seen (x :: r) = x :: r'.
Proof. intros Hx. simpl. rewrite bool_decide_eq_false_2 by done. eauto. Qed.

(** After deduplication and truncation only the head of a list is left. *)
Lemma take1_dedup (x : list str) : take 1 (dedup x) = take 1 x.
Proof.
  destruct x as [|a x]; [done|]. unfold dedup.
  destruct (dedup_from_head [] a x) as [r' ->]; [apply not_elem_of_nil|].
  simpl. by rewrite !take_0.
Qed.

Lemma take1_head (x y : list str) : head x = head y -> take 1 x = take 1 y.
Proof. destruct x, y; simpl; rewrite ?take_0; congruence. Qed.
End HeapFacts.

Section MergeFacts.
Import ExamplesStream.

(** The addresses the merge only reads: those of the lists of the sources. *)
Context (P : loc -> Prop).

Lemma extends_refl st : extends P st st.
Proof.
  split; [done|]. split; [|done]. intros l. exists []. by rewrite app_nil_r.
Qed.

Lemma extends_trans st1 st2 st3 :
  extends P st1 st2 -> extends P st2 st3 -> extends P st1 st3.
Proof.
  intros (Hk1 & Hm1 & Hf1) (Hk2 & Hm2 & Hf2). split; [|split].
  - eauto.
  - intros l. destruct (Hm1 l) as [s1 H1]. destruct (Hm2 l) as [s2 H2].
    exists (s1 ++ s2). by rewrite H2, H1, app_assoc.
  - intros l Hl. by rewrite Hf2, Hf1.
Qed.

Lemma merge_item_step st word lines :
  merge_inv P st -> P lines ->
  merge_inv P (merge_item st (word, lines)) /\
  extends P st (merge_item st (word, lines)) /\
  exists l, PyDict.get word (merge_item st (word, lines)).2 = Some l /\
            deref (merge_item st (word, lines)).1 l
            = deref st.1 l ++ deref st.1 lines.
Proof.
  destruct st as [h merged]. intros [Hread Hacc] Hlines. simpl in *.
  destruct (PyDict.mem word merged) eqn:Hmem.
  - destruct (dict_mem_get _ _ Hmem) as [l Hl]. rewrite Hl. simpl.
    assert (~ P l /\ l < length h) as [HnP Hlt].
    { rewrite Forall_forall in Hacc. apply (Hacc (word, l)).
      by apply dict_get_elem. }
    split; [|split].
    + split; simpl; [by setoid_rewrite length_insert|].
      eapply Forall_impl; [exact Hacc|]. intros e. by rewrite length_insert.
    + split; [done|]. split; simpl.
      * intros x. destruct (decide (l = x)) as [<-|Hne].
        -- rewrite deref_insert_eq by done. eauto.
        -- rewrite deref_insert_ne by done. exists []. by rewrite app_nil_r.
      * intros x Hx. apply deref_insert_ne. by intros ->.
    + exists l. split; [done|]. simpl. by apply deref_insert_eq.
  - pose proof (dict_mem_false _ _ Hmem) as Hnone.
    rewrite (dict_get_app_r word merged [(word, length h)] Hnone). simpl.
    rewrite decide_True by done. simpl.
    pose proof (Hread lines Hlines) as Hlt.
    rewrite deref_app_new, (deref_app_lt h [[]] lines Hlt). simpl.
    split; [|split].
    + split; simpl.
      * intros x Hx. rewrite length_insert, length_app. specialize (Hread x Hx). lia.
      * apply Forall_app. split.
        -- eapply Forall_impl; [exact Hacc|]. intros e [? ?].
           rewrite length_insert, length_app. split; [done|lia].
        -- constructor; [|constructor]. simpl.
           rewrite length_insert, length_app. simpl. split; [|lia].
           intros Hp. specialize (Hread _ Hp). lia.
    + split; simpl; [intros k l Hk; by apply dict_get_app_l|]. split.
      * intros x. destruct (decide (length h = x)) as [<-|Hne].
        -- rewrite deref_insert_eq by (rewrite length_app; simpl; lia).
           rewrite (deref_ge h (length h)) by lia. eauto.
        -- rewrite deref_insert_ne by done.
           destruct (decide (x < length h)) as [Hx|Hx].
           ++ rewrite deref_app_lt by done. exists []. by rewrite app_nil_r.
           ++ rewrite !deref_ge by (rewrite ?length_app; simpl; lia).
              by exists [].
      * intros x Hx. specialize (Hread x Hx).
        rewrite deref_insert_ne; [|lia]. by apply deref_app_lt.
    + exists (length h). split.
      { rewrite (dict_get_app_r word merged [(word, length h)] Hnone). simpl.
        by rewrite decide_True. }
      rewrite deref_insert_eq by (rewrite length_app; simpl; lia).
      by rewrite (deref_ge h (length h)) by lia.
Qed.
End MergeFacts.

Section MergeFolds.
Import ExamplesStream.
Context (P : loc -> Prop).

(** One source folded in: every item [(k, lines)] of it ends up appended to
    the accumulator list of [k]. *)
Lemma merge_items_fold (items : exdict) st :
  merge_inv P st -> Forall (fun e => P e.2) items ->
  merge_inv P (fold_left merge_item items st) /\
  extends P st (fold_left merge_item items st) /\
  forall k lines, (k, lines) ∈ items ->
    exists l pre post,
      PyDict.get k (fold_left merge_item items st).2 = Some l /\
      deref (fold_left merge_item items st).1 l
      = deref st.1 l ++ pre ++ deref st.1 lines ++ post.
Proof.
  revert st. induction items as [|[word ln] items IH]; intros st Hinv Hitems; simpl.
  - split; [done|]. split; [apply extends_refl|]. intros k lines Hin.
    by apply elem_of_nil in Hin.
  - apply Forall_cons in Hitems as [Hln Hitems]. simpl in Hln.
    destruct (merge_item_step P st word ln Hinv Hln) as (Hinv1 & Hext1 & l1 & Hget1 & Hw1).
    destruct (IH _ Hinv1 Hitems) as (Hinv' & Hext' & Hcov).
    split; [done|]. split; [by eapply extends_trans|].
    intros k lines [Heq|Hin]%elem_of_cons.
    + injection Heq as -> ->.
      destruct Hext' as (Hk' & Hm' & _). destruct (Hm' l1) as [suf Hsuf].
      exists l1, [], suf. split; [by apply Hk'|].
      rewrite Hsuf, Hw1. simpl. by rewrite <- app_assoc.
    + destruct (Hcov k lines Hin) as (l & pre & post & Hget & Hd).
      destruct Hext1 as (_ & Hm1 & Hf1). destruct (Hm1 l) as [suf Hsuf].
      assert (P lines) as Hpl.
      { rewrite Forall_forall in Hitems. apply (Hitems (k, lines) Hin). }
      exists l, (suf ++ pre), post. split; [done|].
      rewrite Hd, Hsuf, (Hf1 lines Hpl). by rewrite <- !app_assoc.
Qed.

(** All sources folded in. *)
Lemma merge_all_fold (new_dicts : list exdict) st :
  merge_inv P st -> Forall (Forall (fun e => P e.2)) new_dicts ->
  merge_inv P (merge_all st new_dicts) /\
  extends P st (merge_all st new_dicts) /\
  forall d k lines, d ∈ new_dicts -> (k, lines) ∈ d ->
    exists l pre post,
      PyDict.get k (merge_all st new_dicts).2 = Some l /\
      deref (merge_all st new_dicts).1 l
      = deref st.1 l ++ pre ++ deref st.1 lines ++ post.
Proof.
  unfold merge_all.
  revert st. induction new_dicts as [|d0 ds IH]; intros st Hinv Hds; simpl.
  - split; [done|]. split; [apply extends_refl|]. intros d k lines Hin.
    by apply elem_of_nil in Hin.
  - apply Forall_cons in Hds as [Hd0 Hds].
    destruct (merge_items_fold d0 st Hinv Hd0) as (Hinv1 & Hext1 & Hcov1).
    destruct (IH _ Hinv1 Hds) as (Hinv' & Hext' & Hcov).
    split; [done|]. split; [by eapply extends_trans|].
    intros d k lines [->|Hin]%elem_of_cons Hitem.
    + destruct (Hcov1 k lines Hitem) as (l & pre & post & Hget & Hd).
      destruct Hext' as (Hk' & Hm' & _). destruct (Hm' l) as [suf Hsuf].
      exists l, pre, (post ++ suf). split; [by apply Hk'|].
      rewrite Hsuf, Hd. by rewrite <- !app_assoc.
    + destruct (Hcov d k lines Hin Hitem) as (l & pre & post & Hget & Hd).
      destruct Hext1 as (_ & Hm1 & Hf1). destruct (Hm1 l) as [suf Hsuf].
      assert (P lines) as Hpl.
      { rewrite Forall_forall in Hds. specialize (Hds d Hin).
        rewrite Forall_forall in Hds. apply (Hds (k, lines) Hitem). }
      exists l, (suf ++ pre), post. split; [done|].
      rewrite Hd, Hsuf, (Hf1 lines Hpl). by rewrite <- !app_assoc.
Qed.

Lemma merge_items_again (items : exdict) st :
  merge_inv P st -> Forall (fun e => P e.2) items -> saturated st items ->
  (fold_left merge_item items st).2 = st.2 /\
  forall l, head (deref (fold_left merge_item items st).1 l) = head (deref st.1 l).
Proof.
  revert st. induction items as [|[word ln] items IH]; intros st Hinv Hitems Hsat; simpl.
  - done.
  - apply Forall_cons in Hitems as [Hln Hitems]. simpl in Hln.
    apply Forall_cons in Hsat as [(l & Hl & Hempty) Hsat]. simpl in Hl, Hempty.
    destruct (merge_item_step P st word ln Hinv Hln) as (Hinv1 & Hext1 & l1 & Hget1 & Hw1).
    assert (merge_item st (word, ln)
            = (<[l := deref st.1 l ++ deref st.1 ln]> st.1, st.2)) as Hstep.
    { destruct st as [h merged]. simpl in *. unfold PyDict.mem.
      rewrite Hl. simpl. rewrite Hl. done. }
    assert ((merge_item st (word, ln)).2 = st.2) as Hsame by (by rewrite Hstep).
    assert (forall x, head (deref (merge_item st (word, ln)).1 x) = head (deref st.1 x))
      as Hheads.
    { intros x. rewrite Hsame in Hget1. assert (l1 = l) as -> by congruence.
      destruct (decide (l = x)) as [<-|Hne].
      - rewrite Hw1. destruct (deref st.1 l) eqn:Hd; simpl; [|done].
        by rewrite Hempty.
      - rewrite Hstep. simpl. by rewrite deref_insert_ne. }
    destruct (IH (merge_item st (word, ln))) as [Hacc' Hheads']; [done..| |].
    + eapply Forall_impl; [exact Hsat|]. intros [k lines] (l2 & Hl2 & He2).
      simpl in *. exists l2. rewrite Hsame. split; [done|].
      intros Hnil. destruct Hext1 as (_ & Hm1 & _).
      destruct (Hm1 l2) as [suf Hsuf]. rewrite Hnil in Hsuf.
      symmetry in Hsuf. apply app_eq_nil in Hsuf as [Hnil2 _].
      specialize (He2 Hnil2).
      destruct (Hm1 lines) as [suf' Hsuf'].
      specialize (Hheads lines). rewrite He2 in Hheads.
      destruct (deref (merge_item st (word, ln)).1 lines); [done|]. done.
    + split; [by rewrite Hacc'|]. intros x. by rewrite Hheads'.
Qed.
End MergeFolds.

Section MergeClaims.
Import ExamplesStream.

Lemma merge_and_clean_heap h existing new_dicts :
  (merge_and_clean h existing new_dicts).1 = (merge_all (h, existing) new_dicts).1.
Proof. unfold merge_and_clean. by destruct (merge_all _ _). Qed.

Lemma merge_and_clean_result h existing new_dicts :
  (merge_and_clean h existing new_dicts).2
  = clean (merge_all (h, existing) new_dicts).1 (merge_all (h, existing) new_dicts).2.
Proof. unfold merge_and_clean. by destruct (merge_all _ _). Qed.

Lemma merge_inv_initial h existing new_dicts :
  valid h existing -> Forall (valid h) new_dicts ->
  Forall (separate existing) new_dicts ->
  merge_inv (read_by new_dicts) (h, existing).
Proof.
  intros Hex Hnew Hsep. split; simpl.
  - intros l (d & e & Hd & He & <-).
    rewrite Forall_forall in Hnew. specialize (Hnew d Hd).
    unfold valid in Hnew. rewrite Forall_forall in Hnew. by apply Hnew.
  - unfold valid in Hex. rewrite Forall_forall in Hex.
    apply Forall_forall. intros e He. split; [|by apply Hex].
    intros (d & e' & Hd & He' & Heq).
    rewrite Forall_forall in Hsep. specialize (Hsep d Hd).
    unfold separate in Hsep. rewrite Forall_forall in Hsep.
    specialize (Hsep e He). rewrite Forall_forall in Hsep.
    by specialize (Hsep e' He').
Qed.

Lemma read_by_items new_dicts :
  Forall (Forall (fun e => read_by new_dicts e.2)) new_dicts.
Proof.
  apply Forall_forall. intros d Hd. apply Forall_forall. intros e He.
  by exists d, e.
Qed.

(** C9. [merge_and_clean] changes the lists of its first argument: when the
    dictionaries share no list, for a key of the existing map that a source
    also has, the list the existing map holds for that key is, after the
    call, its old contents followed by more, the source's examples among
    them; so whenever that source list is not empty the caller's existing map
    no longer reads as it did. *)
Theorem existing_lists_extended_in_place (h : heap) (existing : exdict)
    (new_dicts : list exdict) (d : exdict) (k : str) (l lines : loc) :
  valid h existing -> Forall (valid h) new_dicts ->
  Forall (separate existing) new_dicts ->
  d ∈ new_dicts ->
  PyDict.get k existing = Some l -> PyDict.get k d = Some lines ->
  (exists pre post,
     deref (merge_and_clean h existing new_dicts).1 l
     = deref h l ++ pre ++ deref h lines ++ post) /\
  (deref h lines <> [] ->
   view (merge_and_clean h existing new_dicts).1 existing <> view h existing).
Proof.
  intros Hex Hnew Hsep Hd Hk Hkd.
  rewrite merge_and_clean_heap.
  pose proof (merge_inv_initial h existing new_dicts Hex Hnew Hsep) as Hinv.
  destruct (merge_all_fold (read_by new_dicts) new_dicts (h, existing) Hinv
              (read_by_items new_dicts)) as (_ & Hext & Hcov).
  destruct (Hcov d k lines Hd (dict_get_elem _ _ _ Hkd))
    as (l' & pre & post & Hget & Hderef).
  destruct Hext as (Hkeys & _ & _).
  rewrite (Hkeys k l Hk) in Hget. injection Hget as <-. simpl in Hderef.
  split; [eauto|].
  intros Hne Hview.
  assert (PyDict.get k (view (merge_all (h, existing) new_dicts).1 existing)
          = PyDict.get k (view h existing)) as Hsame by (by rewrite Hview).
  rewrite !get_view, Hk in Hsame. simpl in Hsame. injection Hsame as Hsame.
  rewrite Hderef in Hsame.
  apply (f_equal length) in Hsame. rewrite !length_app in Hsame.
  destruct (deref h lines); [done|]. simpl in Hsame. lia.
Qed.

(** A map folded into itself: each list is appended to itself, so the
    accumulator and the head of every list stay as they are. *)
Lemma merge_self_heads (items : exdict) st :
  (forall e, e ∈ items -> PyDict.get e.1 st.2 = Some e.2) ->
  (fold_left merge_item items st).2 = st.2 /\
  forall l, head (deref (fold_left merge_item items st).1 l) = head (deref st.1 l).
Proof.
  revert st. induction items as [|[word ln] items IH]; intros st Hitems; simpl; [done|].
  assert (PyDict.get word st.2 = Some ln) as Hg
    by (apply (Hitems (word, ln)); left).
  assert (merge_item st (word, ln)
          = (<[ln := deref st.1 ln ++ deref st.1 ln]> st.1, st.2)) as Hstep.
  { destruct st as [h0 merged]. simpl in *. unfold PyDict.mem.
    rewrite Hg. simpl. rewrite Hg. done. }
  destruct (IH (merge_item st (word, ln))) as [Hacc Hheads].
  { intros e He. rewrite Hstep. simpl. apply Hitems. by right. }
  split; [by rewrite Hacc, Hstep|].
  intros l. rewrite Hheads, Hstep. simpl.
  destruct (decide (ln = l)) as [<-|Hne]; [|by rewrite deref_insert_ne].
  destruct (decide (ln < length st.1)) as [Hlt|Hge].
  - rewrite deref_insert_eq by done. by destruct (deref st.1 ln).
  - by rewrite list_insert_ge by lia.
Qed.

Lemma nodup_keys_get (M : exdict) (e : str * loc) :
  NoDup (PyDict.keys M) -> e ∈ M -> PyDict.get e.1 M = Some e.2.
Proof.
  destruct e as [k l]. simpl. intros Hnodup Hin.
  induction M as [|[k0 l0] M IH]; [by apply elem_of_nil in Hin|].
  simpl in *. apply NoDup_cons in Hnodup as [Hk0 Hnodup].
  apply elem_of_cons in Hin as [[= -> ->]|Hin].
  - by rewrite decide_True.
  - rewrite decide_False; [by apply IH|].
    intros ->. apply Hk0. apply (list_elem_of_fmap_2 fst) in Hin. exact Hin.
Qed.

(** C5. Folding the same source in twice gives the same cleaned map as
    folding it in once, whatever the existing map (the two sharing no list);
    merging a map with itself gives the same cleaned map as merging it with
    nothing; and when its lists have at most one element, merging a map with
    itself gives back what that map held. *)
Theorem merge_idempotent :
  (forall (h : heap) (existing M : exdict),
     valid h existing -> valid h M -> separate existing M ->
     (merge_and_clean h existing [M; M]).2 = (merge_and_clean h existing [M]).2)
  /\
  (forall (h : heap) (M : exdict),
     NoDup (PyDict.keys M) ->
     (merge_and_clean h M [M]).2 = (merge_and_clean h M []).2)
  /\
  (forall (h : heap) (M : exdict),
     NoDup (PyDict.keys M) -> cleaned h M ->
     (merge_and_clean h M [M]).2 = view h M).
Proof.
  split; [|split].
  - intros h existing M Hex HM Hsep.
    rewrite !merge_and_clean_result. unfold merge_all. simpl.
    set (P := read_by [M]).
    assert (merge_inv P (h, existing)) as Hinv.
    { apply merge_inv_initial; [done|by repeat constructor..]. }
    assert (Forall (fun e => P e.2) M) as HP.
    { pose proof (read_by_items [M]) as HF. by apply Forall_cons in HF as [HF _]. }
    destruct (merge_items_fold P M (h, existing) Hinv HP) as (Hinv1 & Hext1 & Hcov1).
    set (st1 := fold_left merge_item M (h, existing)) in *.
    destruct (merge_items_again P M st1 Hinv1 HP) as [Hacc Hheads].
    { apply Forall_forall. intros [k lines] Hin.
      destruct (Hcov1 k lines Hin) as (l & pre & post & Hget & Hd).
      exists l. split; [done|]. simpl. intros Hnil.
      destruct Hext1 as (_ & _ & Hf). rewrite Hf.
      - rewrite Hnil in Hd. symmetry in Hd.
        apply app_eq_nil in Hd as [_ Hd]. apply app_eq_nil in Hd as [_ Hd].
        by apply app_eq_nil in Hd as [Hd _].
      - rewrite Forall_forall in HP. apply (HP (k, lines) Hin). }
    rewrite Hacc. unfold clean. apply map_ext. intros [k l]. simpl.
    f_equal. rewrite !take1_dedup. by apply take1_head.
  - intros h M Hnodup.
    rewrite !merge_and_clean_result. unfold merge_all. simpl.
    destruct (merge_self_heads M (h, M)) as [Hacc Hheads].
    { intros e He. by apply nodup_keys_get. }
    rewrite Hacc. simpl. unfold clean. apply map_ext. intros [k l]. simpl.
    f_equal. rewrite !take1_dedup. by apply take1_head.
  - intros h M Hnodup Hclean.
    rewrite merge_and_clean_result. unfold merge_all. simpl.
    destruct (merge_self_heads M (h, M)) as [Hacc Hheads].
    { intros e He. by apply nodup_keys_get. }
    rewrite Hacc. simpl. unfold clean, view.
    unfold cleaned in Hclean. rewrite Forall_forall in Hclean.
    apply map_ext_in. intros [k l] Hin. simpl. f_equal.
    rewrite take1_dedup.
    rewrite (take1_head _ (deref h l)) by apply Hheads.
    apply take_ge. apply (Hclean (k, l)). by apply list_elem_of_In.
Qed.

Lemma existing_lists_extended_in_place_witness :
  (exists pre post,
     ExamplesStream.deref
       (merge_and_clean Samples.lists Samples.existing_map [Samples.source_map]).1 0
     = ExamplesStream.deref Samples.lists 0 ++ pre
       ++ ExamplesStream.deref Samples.lists 2 ++ post) /\
  (ExamplesStream.deref Samples.lists 2 <> [] ->
   view (merge_and_clean Samples.lists Samples.existing_map [Samples.source_map]).1
        Samples.existing_map
   <> view Samples.lists Samples.existing_map).
Proof.
  apply (existing_lists_extended_in_place Samples.lists Samples.existing_map
           [Samples.source_map] Samples.source_map (py "mačka") 0 2).
  - unfold valid. compute_done.
  - unfold valid. compute_done.
  - unfold separate. compute_done.
  - compute_done.
  - reflexivity.
  - reflexivity.
Defined.

Lemma merge_idempotent_witness :
  (merge_and_clean Samples.lists Samples.existing_map
     [Samples.source_map; Samples.source_map]).2
  = (merge_and_clean Samples.lists Samples.existing_map [Samples.source_map]).2
  /\
  (merge_and_clean Samples.lists Samples.source_map [Samples.source_map]).2
  = (merge_and_clean Samples.lists Samples.source_map []).2
  /\
  (merge_and_clean Samples.lists Samples.clean_map [Samples.clean_map]).2
  = view Samples.lists Samples.clean_map.
Proof.
  split; [|split].
  - apply (proj1 merge_idempotent).
    + unfold valid. compute_done.
    + unfold valid. compute_done.
    + unfold separate. compute_done.
  - apply (proj1 (proj2 merge_idempotent)). compute_done.
  - apply (proj2 (proj2 merge_idempotent)).
    + compute_done.
    + unfold cleaned. compute_done.
Defined.
End MergeClaims.

(* ===================================================================== *)
(** ** The key filter of the candidate extractor *)
(* ===================================================================== *)

Section KeyFilter.
Import ExamplesStream.

Lemma key_class_alphabet c : key_class c = true -> in_alphabet c = true.
Proof.
  unfold key_class, in_alphabet, in_range. simpl existsb.
  rewrite !orb_true_iff, !andb_true_iff, !Z.leb_le, !Z.eqb_eq. lia.
Qed.

Lemma range_forallb (f : Z -> bool) (lo : Z) (n : nat) :
  forallb f (map (fun i => lo + Z.of_nat i)%Z (seq 0 n)) = true ->
  forall c, (lo <= c < lo + Z.of_nat n)%Z -> f c = true.
Proof.
  intros Hall c Hc. rewrite forallb_forall in Hall. apply Hall.
  apply in_map_iff. exists (Z.to_nat (c - lo)). split; [lia|].
  apply in_seq. lia.
Qed.

Lemma alphabet_ok_all c : alphabet_ok c = true.
Proof.
  destruct (in_alphabet c) eqn:Hin; [|unfold alphabet_ok; by rewrite Hin].
  apply (range_forallb alphabet_ok 0x41 318); [by vm_compute|].
  revert Hin. unfold in_alphabet, in_range.
  rewrite !orb_true_iff, !andb_true_iff, !Z.leb_le. lia.
Qed.

Lemma lower_idempotent key :
  forallb key_class key = true -> lower (lower key) = lower key.
Proof.
  induction key as [|c key IH]; simpl; [done|].
  intros [Hc Hkey]%andb_true_iff.
  unfold lower in *. simpl. rewrite flat_map_app, (IH Hkey). f_equal.
  pose proof (alphabet_ok_all c) as Hok. unfold alphabet_ok in Hok.
  rewrite (key_class_alphabet c Hc) in Hok. simpl in Hok.
  apply andb_true_iff in Hok as [_ Hok]. by apply bool_decide_eq_true in Hok.
Qed.


End KeyFilter.

(* ===================================================================== *)
(** ** First occurrences: [list(dict.fromkeys(...))] *)
(* ===================================================================== *)

Section DedupFacts.
Implicit Types (seen l : list str) (x : str).

Lemma dedup_from_snoc seen l x :
  dedup_from seen (l ++ [x])
  = dedup_from seen l ++ (if decide (x ∈ seen \/ x ∈ l) then [] else [x]).
Proof.
  revert seen. induction l as [|y l IH]; intros seen; simpl.
  - destruct (bool_decide (x ∈ seen)) eqn:Hx.
    + apply bool_decide_eq_true in Hx. rewrite decide_True; [done|by left].
    + apply bool_decide_eq_false in Hx. rewrite decide_False; [done|].
      intros [?|Hn]; [done|]. by apply elem_of_nil in Hn.
  - destruct (bool_decide (y ∈ seen)) eqn:Hy.
    + apply bool_decide_eq_true in Hy. rewrite IH. f_equal.
      destruct (decide (x ∈ seen \/ x ∈ l)) as [H1|H1];
        destruct (decide (x ∈ seen \/ x ∈ y :: l)) as [H2|H2]; try done.
      * exfalso. apply H2. destruct H1; [by left|right; by right].
      * exfalso. apply H1. destruct H2 as [?|[->|?]%elem_of_cons]; auto.
    + apply bool_decide_eq_false in Hy. rewrite IH. simpl. f_equal. f_equal.
      destruct (decide (x ∈ y :: seen \/ x ∈ l)) as [H1|H1];
        destruct (decide (x ∈ seen \/ x ∈ y :: l)) as [H2|H2]; try done.
      * exfalso. apply H2.
        destruct H1 as [[->|?]%elem_of_cons|?]; [right; left|by left|right; by right].
      * exfalso. apply H1.
        destruct H2 as [?|[->|?]%elem_of_cons]; [left; by right|left; left|by right].
Qed.

Lemma dedup_snoc l x :
  dedup (l ++ [x]) = dedup l ++ (if decide (x ∈ l) then [] else [x]).
Proof.
  unfold dedup. rewrite dedup_from_snoc.
  destruct (decide (x ∈ [] \/ x ∈ l)) as [H1|H1]; destruct (decide (x ∈ l)) as [H2|H2];
    try done.
  - destruct H1 as [H1|?]; [by apply elem_of_nil in H1|done].
  - exfalso. apply H1. by right.
Qed.

Lemma elem_of_dedup_from seen l x : x ∈ dedup_from seen l <-> x ∈ l /\ x ∉ seen.
Proof.
  revert seen. induction l as [|y l IH]; intros seen; simpl.
  - split; [by intros ?%elem_of_nil|by intros [?%elem_of_nil _]].
  - destruct (bool_decide (y ∈ seen)) eqn:Hy.
    + apply bool_decide_eq_true in Hy. rewrite IH. split.
      * intros [? ?]. split; [by right|done].
      * intros [[->|?]%elem_of_cons ?]; done.
    + apply bool_decide_eq_false in Hy. rewrite elem_of_cons, IH. split.
      * intros [->|[? Hn]]; [split; [left|done]|].
        split; [by right|]. intros ?. apply Hn. by right.
      * intros [[->|?]%elem_of_cons Hn]; [by left|].
        destruct (decide (x = y)) as [->|Hne]; [by left|]. right. split; [done|].
        by intros [->|?]%elem_of_cons.
Qed.

Lemma elem_of_dedup l x : x ∈ dedup l <-> x ∈ l.
Proof.
  unfold dedup. rewrite elem_of_dedup_from. split; [by intros [? _]|].
  intros ?. split; [done|]. apply not_elem_of_nil.
Qed.

Lemma NoDup_dedup_from seen l : NoDup (dedup_from seen l).
Proof.
  revert seen. induction l as [|y l IH]; intros seen; simpl; [constructor|].
  destruct (bool_decide (y ∈ seen)); [apply IH|].
  constructor; [|apply IH]. rewrite elem_of_dedup_from. intros [_ Hn].
  apply Hn. left.
Qed.

Lemma NoDup_dedup l : NoDup (dedup l).
Proof. apply NoDup_dedup_from. Qed.

Lemma dedup_from_NoDup seen l :
  NoDup l -> (forall x, x ∈ l -> x ∉ seen) -> dedup_from seen l = l.
Proof.
  revert seen. induction l as [|y l IH]; intros seen Hnd Hseen; simpl; [done|].
  apply NoDup_cons in Hnd as [Hy Hnd].
  rewrite bool_decide_eq_false_2 by (apply Hseen; left). f_equal.
  apply IH; [done|]. intros x Hx [->|?]%elem_of_cons; [done|].
  by apply (Hseen x); [right|].
Qed.

Lemma dedup_NoDup l : NoDup l -> dedup l = l.
Proof. intros Hnd. apply dedup_from_NoDup; [done|]. intros x _. apply not_elem_of_nil. Qed.
End DedupFacts.

(* ===================================================================== *)
(** ** Keys of a dictionary, counts of a counter *)
(* ===================================================================== *)

Section DictKeyFacts.
Context {K : Type} `{EqDecision K} {V : Type}.
Implicit Types (d : PyDict.dict K V) (k : K) (v : V).

Lemma dict_set_keys k v d :
  PyDict.keys (PyDict.set k v d)
  = PyDict.keys d ++ (if decide (k ∈ PyDict.keys d) then [] else [k]).
Proof.
  induction d as [|[k' v'] d IH].
  - unfold PyDict.keys. simpl.
    destruct (decide (k ∈ [])) as [Hin|_]; [by apply elem_of_nil in Hin|done].
  - simpl. destruct (decide (k = k')) as [->|Hne]; simpl.
    + destruct (decide (k' ∈ k' :: PyDict.keys d)) as [_|Hn];
        [by rewrite app_nil_r|]. exfalso. apply Hn. left.
    + unfold PyDict.keys in *. rewrite IH. f_equal.
      destruct (decide (k ∈ map fst d)) as [H1|H1];
        destruct (decide (k ∈ k' :: map fst d)) as [H2|H2]; try done.
      * exfalso. apply H2. by right.
      * exfalso. by apply elem_of_cons in H2 as [?|?].
Qed.

Lemma dict_set_NoDup k v d :
  NoDup (PyDict.keys d) -> NoDup (PyDict.keys (PyDict.set k v d)).
Proof.
  intros Hnd. rewrite dict_set_keys. destruct (decide (k ∈ PyDict.keys d)).
  - by rewrite app_nil_r.
  - apply NoDup_app. split; [done|]. split; [|apply NoDup_singleton].
    intros x Hx ->%list_elem_of_singleton. done.
Qed.
End DictKeyFacts.

Section CounterIncr.
Context {K : Type} `{EqDecision K}.
Implicit Types (c : Counter.counter K) (k : K).

Lemma counter_incr_eq k c :
  default 0 (PyDict.get k (Counter.incr k c)) = S (default 0 (PyDict.get k c)).
Proof. unfold Counter.incr. rewrite dict_get_set_eq. simpl. lia. Qed.

Lemma counter_incr_ne k k' c :
  k <> k' -> PyDict.get k' (Counter.incr k c) = PyDict.get k' c.
Proof. intros Hne. unfold Counter.incr. by rewrite dict_get_set_ne. Qed.

Lemma counter_incr_NoDup k c :
  NoDup (PyDict.keys c) -> NoDup (PyDict.keys (Counter.incr k c)).
Proof. apply dict_set_NoDup. Qed.

Lemma dict_set_sum k (n : nat) (c : Counter.counter K) :
  sum_list (map snd (PyDict.set k n c)) + default 0 (PyDict.get k c)
  = sum_list (map snd c) + n.
Proof.
  induction c as [|[k' n'] c IH]; simpl; [lia|].
  destruct (decide (k = k')) as [->|Hne]; simpl; lia.
Qed.

Lemma counter_incr_sum k c :
  sum_list (map snd (Counter.incr k c)) = S (sum_list (map snd c)).
Proof.
  unfold Counter.incr.
  pose proof (dict_set_sum k (default 0 (PyDict.get k c) + 1) c). lia.
Qed.

Lemma counter_incr_positive k c :
  (forall k' n, PyDict.get k' c = Some n -> 0 < n) ->
  forall k' n, PyDict.get k' (Counter.incr k c) = Some n -> 0 < n.
Proof.
  intros Hpos k' n. destruct (decide (k = k')) as [<-|Hne].
  - unfold Counter.incr. rewrite dict_get_set_eq. intros [= <-]. lia.
  - rewrite counter_incr_ne by done. apply Hpos.
Qed.
End CounterIncr.

(* ===================================================================== *)
(** ** What the aggregator computes *)
(* ===================================================================== *)

Section AggregatorContents.

Lemma counted_tokens_snoc lines l :
  counted_tokens (lines ++ [l])
  = counted_tokens lines ++ counted_tokens [l].
Proof. unfold counted_tokens. by rewrite flat_map_app. Qed.

Lemma tokens_of_snoc W lines l :
  tokens_of W (lines ++ [l]) = tokens_of W lines ++ tokens_of W [l].
Proof. unfold tokens_of. by rewrite counted_tokens_snoc, filter_app. Qed.

Lemma record_of_snoc ts t : record_of (ts ++ [t]) = update_record t (record_of ts).
Proof. unfold record_of. by rewrite fold_left_app. Qed.

(** The map groups the counted tokens by form: the record of a wordform is
    built from its own tokens alone. *)
Lemma aggregate_lookup lines st W :
  aggregate lines = Ok st ->
  PyDict.get W (wordforms st)
  = match tokens_of W lines with
    | [] => None
    | _ :: _ => Some (record_of (tokens_of W lines))
    end.
Proof.
  revert st. induction lines as [|l lines IH] using rev_ind; intros st.
  - by intros [= <-].
  - unfold aggregate. rewrite for_lines_snoc.
    fold (aggregate lines). destruct (aggregate lines) as [st0|e]; [|done].
    simpl. specialize (IH st0 eq_refl). rewrite tokens_of_snoc.
    assert (forall st1, wordforms st1 = wordforms st0 -> tokens_of W [l] = [] ->
              PyDict.get W (wordforms st1)
              = match tokens_of W lines ++ tokens_of W [l] with
                | [] => None
                | _ :: _ => Some (record_of (tokens_of W lines ++ tokens_of W [l]))
                end) as Hskip.
    { intros st1 -> ->. by rewrite app_nil_r. }
    destruct l as [| | |t]; simpl.
    + intros [= <-]. by apply Hskip.
    + intros [= <-]. by apply Hskip.
    + done.
    + destruct (truthy (strip (form t))) eqn:Hne; simpl.
      * intros [= <-]. simpl. unfold add_token.
        destruct (decide (form t = W)) as [<-|HW].
        -- rewrite dict_get_set_eq.
           assert (tokens_of (form t) [Rec t] = [t]) as ->.
           { unfold tokens_of, counted_tokens. simpl. rewrite Hne. simpl.
             rewrite filter_cons_True by done. by rewrite filter_nil. }
           rewrite IH, record_of_snoc.
           destruct (tokens_of (form t) lines); simpl; done.
        -- rewrite dict_get_set_ne by done. apply Hskip; [done|].
           unfold tokens_of, counted_tokens. simpl. rewrite Hne. simpl.
           rewrite filter_cons_False by done. by rewrite filter_nil.
      * intros [= <-]. apply Hskip; [done|].
        unfold tokens_of, counted_tokens. simpl. by rewrite Hne.
Qed.

Lemma record_of_frequency ts : frequency (record_of ts) = length ts.
Proof.
  induction ts as [|t ts IH] using rev_ind; [done|].
  rewrite record_of_snoc, length_app. simpl. lia.
Qed.

Lemma update_record_counter t r :
  feats_counter (update_record t r) = Counter.incr (feats t) (feats_counter r).
Proof. simpl. by destruct (feats t). Qed.

Lemma record_of_counter ts :
  NoDup (PyDict.keys (feats_counter (record_of ts))) /\
  (forall f, default 0 (PyDict.get f (feats_counter (record_of ts)))
             = length (filter (fun t => feats t = f) ts)) /\
  (forall f n, PyDict.get f (feats_counter (record_of ts)) = Some n -> 0 < n) /\
  sum_list (map snd (feats_counter (record_of ts))) = length ts.
Proof.
  induction ts as [|t ts (Hnd & Hcount & Hpos & Hsum)] using rev_ind.
  - repeat split; [constructor|done..].
  - rewrite record_of_snoc, update_record_counter. repeat split.
    + by apply counter_incr_NoDup.
    + intros f. rewrite filter_app, length_app.
      destruct (decide (feats t = f)) as [<-|Hne].
      * rewrite counter_incr_eq, Hcount, filter_cons_True by done. simpl. lia.
      * rewrite counter_incr_ne, Hcount, filter_cons_False by done. simpl. lia.
    + by apply counter_incr_positive.
    + rewrite counter_incr_sum, Hsum, length_app. simpl. lia.
Qed.

Lemma record_of_reservoir ts :
  sentence_ids (record_of ts)
  = list_to_set (take 10 (dedup (map sentence_id ts))).
Proof.
  induction ts as [|t ts IH] using rev_ind; [done|].
  rewrite record_of_snoc, map_app. simpl map. rewrite dedup_snoc. simpl.
  set (D := dedup (map sentence_id ts)) in *.
  assert (size (sentence_ids (record_of ts)) = length (take 10 D)) as Hsize.
  { rewrite IH. apply size_list_to_set.
    eapply sublist_NoDup; [apply NoDup_dedup|apply sublist_take]. }
  rewrite Hsize, length_take.
  destruct (10 `min` length D <? 10) eqn:Hlt.
  - apply Nat.ltb_lt in Hlt. assert (length D < 10) as HD by lia.
    rewrite IH. rewrite (take_ge D) by lia.
    destruct (decide (sentence_id t ∈ map sentence_id ts)) as [Hin|Hnin].
    + rewrite app_nil_r, (take_ge D) by lia.
      apply elem_of_dedup in Hin. fold D in Hin.
      assert (sentence_id t ∈ (list_to_set D : gset str)) as Hset
        by (by apply elem_of_list_to_set).
      apply subseteq_union_1_L. by apply singleton_subseteq_l.
    + rewrite take_ge by (rewrite length_app; simpl; lia).
      rewrite list_to_set_app_L. simpl. rewrite (right_id_L ∅ (∪)).
      apply (comm_L (∪)).
  - apply Nat.ltb_ge in Hlt. assert (10 <= length D) as HD by lia.
    rewrite IH. by rewrite take_app_le by done.
Qed.

Lemma aggregate_keys lines st :
  aggregate lines = Ok st ->
  PyDict.keys (wordforms st) = dedup (map form (counted_tokens lines)).
Proof.
  revert st. induction lines as [|l lines IH] using rev_ind; intros st.
  - by intros [= <-].
  - unfold aggregate. rewrite for_lines_snoc.
    fold (aggregate lines). destruct (aggregate lines) as [st0|e]; [|done].
    simpl. specialize (IH st0 eq_refl). rewrite counted_tokens_snoc, map_app.
    destruct l as [| | |t]; simpl.
    + intros [= <-]. by rewrite app_nil_r.
    + intros [= <-]. by rewrite app_nil_r.
    + done.
    + destruct (truthy (strip (form t))) eqn:Hne; simpl.
      * intros [= <-]. simpl. unfold add_token.
        rewrite dict_set_keys, dedup_snoc, IH.
        f_equal. destruct (decide (form t ∈ dedup _)) as [H1|H1];
          destruct (decide (form t ∈ map form _)) as [H2|H2]; try done.
        -- exfalso. apply H2. by apply elem_of_dedup.
        -- exfalso. apply H1. by apply elem_of_dedup.
      * intros [= <-]. by rewrite app_nil_r.
Qed.


End AggregatorContents.

Section AggregatorExtras.

(** X1. The frequency of a wordform is the number of tokens counted for it:
    a wordform is in the map exactly when the stream has a token with that
    form (a form that is not blank), and then its frequency is the number of
    such tokens. *)
Theorem frequency_counts_tokens (lines : list (line MorphToken)) (st : AggState)
    (W : str) :
  aggregate lines = Ok st ->
  (PyDict.get W (wordforms st) = None <-> tokens_of W lines = []) /\
  (forall r, PyDict.get W (wordforms st) = Some r ->
     frequency r = length (tokens_of W lines) /\ 0 < frequency r).
Proof.
  intros Hrun. rewrite (aggregate_lookup lines st W Hrun).
  destruct (tokens_of W lines) as [|t ts] eqn:Hts.
  - split; [done|]. intros r [=].
  - split; [split; intros [=]|]. intros r [= <-].
    rewrite record_of_frequency. simpl. lia.
Qed.

Lemma frequency_counts_tokens_witness :
  frequency Samples.su_record = length (tokens_of (py "sú") Samples.su_lines) /\
  0 < frequency Samples.su_record.
Proof.
  apply (proj2 (frequency_counts_tokens Samples.su_lines Samples.su_state (py "sú")
                  ltac:(vm_compute; reflexivity))).
  vm_compute. reflexivity.
Defined.

(** X2. The feature counter of a wordform holds each feature string once,
    with the number of the wordform's tokens that carry it (tokens without
    features count under the empty string); no stored count is zero and the
    counts add up to the frequency. *)
Theorem feature_counts_exact (lines : list (line MorphToken)) (st : AggState)
    (W : str) (r : WordformRecord) :
  aggregate lines = Ok st ->
  PyDict.get W (wordforms st) = Some r ->
  NoDup (PyDict.keys (feats_counter r)) /\
  (forall f, default 0 (PyDict.get f (feats_counter r))
             = length (filter (fun t => feats t = f) (tokens_of W lines))) /\
  (forall f n, PyDict.get f (feats_counter r) = Some n -> 0 < n) /\
  sum_list (map snd (feats_counter r)) = frequency r.
Proof.
  intros Hrun. rewrite (aggregate_lookup lines st W Hrun).
  destruct (tokens_of W lines) as [|t ts] eqn:Hts; [done|]. intros [= <-].
  destruct (record_of_counter (t :: ts)) as (Hnd & Hcount & Hpos & Hsum).
  by rewrite record_of_frequency.
Qed.

Lemma feature_counts_exact_witness :
  NoDup (PyDict.keys (feats_counter Samples.su_record)) /\
  (forall f, default 0 (PyDict.get f (feats_counter Samples.su_record))
             = length (filter (fun t => feats t = f)
                         (tokens_of (py "sú") Samples.su_lines))) /\
  (forall f n, PyDict.get f (feats_counter Samples.su_record) = Some n -> 0 < n) /\
  sum_list (map snd (feats_counter Samples.su_record)) = frequency Samples.su_record.
Proof.
  apply (feature_counts_exact Samples.su_lines Samples.su_state (py "sú")).
  - vm_compute. reflexivity.
  - vm_compute. reflexivity.
Defined.

(** X3. The reservoir of a wordform is the set of the first ten distinct
    sentence ids of its tokens, in stream order. *)
Theorem reservoir_first_ten_ids (lines : list (line MorphToken)) (st : AggState)
    (W : str) (r : WordformRecord) :
  aggregate lines = Ok st ->
  PyDict.get W (wordforms st) = Some r ->
  sentence_ids r
  = list_to_set (take 10 (dedup (map sentence_id (tokens_of W lines)))).
Proof.
  intros Hrun. rewrite (aggregate_lookup lines st W Hrun).
  destruct (tokens_of W lines) as [|t ts] eqn:Hts; [done|]. intros [= <-].
  apply record_of_reservoir.
Qed.

Lemma reservoir_first_ten_ids_witness :
  sentence_ids Samples.su_record
  = list_to_set (take 10 (dedup (map sentence_id
                                   (tokens_of (py "sú") Samples.su_lines)))).
Proof.
  apply (reservoir_first_ten_ids Samples.su_lines Samples.su_state (py "sú")).
  - vm_compute. reflexivity.
  - vm_compute. reflexivity.
Defined.

(** X4. The wordform map lists each form once, in the order in which the
    forms first occur among the counted tokens; this is the order in which
    the rows are later written. *)
Theorem wordforms_in_first_seen_order (lines : list (line MorphToken))
    (st : AggState) :
  aggregate lines = Ok st ->
  PyDict.keys (wordforms st) = dedup (map form (counted_tokens lines)) /\
  NoDup (PyDict.keys (wordforms st)).
Proof.
  intros Hrun. rewrite (aggregate_keys lines st Hrun).
  split; [done|apply NoDup_dedup].
Qed.

Lemma wordforms_in_first_seen_order_witness :
  PyDict.keys (wordforms Samples.su_state)
  = dedup (map form (counted_tokens Samples.su_lines)) /\
  NoDup (PyDict.keys (wordforms Samples.su_state)).
Proof.
  apply (wordforms_in_first_seen_order Samples.su_lines Samples.su_state).
  vm_compute. reflexivity.
Defined.


End AggregatorExtras.

(* ===================================================================== *)
(** ** The sentence table *)
(* ===================================================================== *)

Section LoadFacts.




End LoadFacts.

(* ===================================================================== *)
(** ** The example selector *)
(* ===================================================================== *)

Section SelectorFacts.
Context {rng : Type} (shuffle : rng -> list str -> rng * list str).
Context (set_iter : gset str -> list str).
Implicit Types (ids : list str) (e : str) (sentence_ids : gset str).

Lemma elem_of_filter_available ids (sentences : gmap str str) e :
  e ∈ filter_available ids sentences <->
  exists sid t, sid ∈ ids /\ sentences !! sid = Some t /\ e = strip t /\
                acceptable e = true.
Proof.
  induction ids as [|sid ids IH]; simpl.
  - split; [by intros ?%elem_of_nil|]. intros (sid & t & ?%elem_of_nil & _). done.
  - destruct (sentences !! sid) as [t|] eqn:Hs.
    + destruct (acceptable (strip t)) eqn:Hacc.
      * rewrite elem_of_cons, IH. split.
        -- intros [->|(sid' & t' & ? & ? & ? & ?)].
           ++ exists sid, t. repeat split; [left|done..].
           ++ exists sid', t'. repeat split; [by right|done..].
        -- intros (sid' & t' & [->|?]%elem_of_cons & Hs' & -> & Ha).
           ++ left. congruence.
           ++ right. by exists sid', t'.
      * rewrite IH. split.
        -- intros (sid' & t' & ? & ? & ? & ?). exists sid', t'.
           repeat split; [by right|done..].
        -- intros (sid' & t' & [->|?]%elem_of_cons & Hs' & -> & Ha).
           ++ congruence.
           ++ by exists sid', t'.
    + rewrite IH. split.
      * intros (sid' & t' & ? & ? & ? & ?). exists sid', t'.
        repeat split; [by right|done..].
      * intros (sid' & t' & [->|?]%elem_of_cons & Hs' & -> & Ha).
        -- congruence.
        -- by exists sid', t'.
Qed.

Lemma elem_of_first_available ids (sentences : gmap str str) e :
  e ∈ first_available ids sentences ->
  exists sid t, sid ∈ ids /\ sentences !! sid = Some t /\ e = strip t.
Proof.
  induction ids as [|sid ids IH]; simpl; [by intros ?%elem_of_nil|].
  destruct (sentences !! sid) as [t|] eqn:Hs.
  - intros ->%list_elem_of_singleton. exists sid, t. repeat split; [left|done].
  - intros (sid' & t' & ? & ? & ?)%IH. exists sid', t'. repeat split; [by right|done..].
Qed.

Lemma first_available_nil ids (sentences : gmap str str) :
  first_available ids sentences = [] <->
  forall sid, sid ∈ ids -> sentences !! sid = None.
Proof.
  induction ids as [|sid ids IH]; simpl.
  - split; [|done]. by intros _ sid ?%elem_of_nil.
  - destruct (sentences !! sid) as [t|] eqn:Hs.
    + split; [done|]. intros Hall. specialize (Hall sid). rewrite Hs in Hall.
      discriminate Hall. left.
    + rewrite IH. split.
      * intros Hall sid' [->|?]%elem_of_cons; [done|by apply Hall].
      * intros Hall sid' ?. apply Hall. by right.
Qed.

Lemma elem_of_example_pool ids (sentences : gmap str str) e :
  e ∈ example_pool ids sentences ->
  exists sid t, sid ∈ ids /\ sentences !! sid = Some t /\ e = strip t.
Proof.
  unfold example_pool.
  destruct (filter_available ids sentences) as [|a l] eqn:Hf.
  - apply elem_of_first_available.
  - rewrite <- Hf. intros (sid & t & ? & ? & ? & _)%elem_of_filter_available.
    by exists sid, t.
Qed.

Lemma example_pool_nil ids (sentences : gmap str str) :
  example_pool ids sentences = [] <->
  forall sid, sid ∈ ids -> sentences !! sid = None.
Proof.
  unfold example_pool.
  destruct (filter_available ids sentences) as [|a l] eqn:Hf.
  - apply first_available_nil.
  - split; [done|]. intros Hall.
    assert (a ∈ filter_available ids sentences) as Ha by (rewrite Hf; left).
    apply elem_of_filter_available in Ha as (sid & t & Hin & Hs & _).
    rewrite (Hall sid Hin) in Hs. done.
Qed.

Lemma example_pool_acceptable ids (sentences : gmap str str) :
  (exists sid t, sid ∈ ids /\ sentences !! sid = Some t /\
                 acceptable (strip t) = true) ->
  forall e, e ∈ example_pool ids sentences -> acceptable e = true.
Proof.
  intros (sid & t & Hin & Hs & Hacc) e. unfold example_pool.
  assert (strip t ∈ filter_available ids sentences) as Hne.
  { apply elem_of_filter_available. by exists sid, t. }
  destruct (filter_available ids sentences) as [|a l] eqn:Hf;
    [by apply elem_of_nil in Hne|].
  rewrite <- Hf. by intros (? & ? & _ & _ & _ & ?)%elem_of_filter_available.
Qed.

Lemma elem_of_fill max_examples selected stack x :
  x ∈ fill max_examples selected stack -> x ∈ selected \/ x ∈ stack.
Proof.
  revert selected. induction stack as [|y stack IH]; intros selected; simpl; [auto|].
  destruct (length selected <? max_examples); [|auto].
  intros [Hs|?]%IH; [|right; by right].
  apply elem_of_app in Hs as [?|Hs]; [by left|].
  apply list_elem_of_singleton in Hs as ->. right; left.
Qed.

(** With room for five, three chosen and a stack to draw from, the loop
    draws the two items on top of the stack. *)
Lemma fill_three (a b c : str) stack :
  fill 5 [a; b; c] stack = [a; b; c] ++ take 2 stack.
Proof. destruct stack as [|x [|y [|z stack]]]; reflexivity. Qed.

Lemma select_unfold sentence_ids sentences max_examples g :
  select_example_sentences shuffle set_iter sentence_ids sentences max_examples g
  = let available := example_pool (set_iter sentence_ids) sentences in
    if length available <=? max_examples then (g, available)
    else
      let selected := [default [] (head available)] in
      let selected :=
        if 1 <? length available
        then selected ++ [default [] (last available)] else selected in
      let selected :=
        if 2 <? length available
        then selected ++ [default [] (available !! (length available / 2))]
        else selected in
      let remaining := filter (fun s => s ∉ selected) available in
      let '(g', remaining) := shuffle g remaining in
      (g', take max_examples (fill max_examples selected (rev remaining))).
Proof. reflexivity. Qed.

Lemma select_subset_pool sentence_ids sentences max_examples g :
  (forall g l x, x ∈ (shuffle g l).2 -> x ∈ l) ->
  forall e,
    e ∈ (select_example_sentences shuffle set_iter sentence_ids sentences
           max_examples g).2 ->
    e ∈ example_pool (set_iter sentence_ids) sentences.
Proof.
  intros Hsub e. rewrite select_unfold.
  generalize (example_pool (set_iter sentence_ids) sentences). intros pool.
  cbv zeta. destruct (length pool <=? max_examples) eqn:Hle; [done|].
  apply Nat.leb_gt in Hle.
  assert (default [] (head pool) ∈ pool) as Hhd.
  { destruct pool; simpl in *; [lia|left]. }
  assert (default [] (last pool) ∈ pool) as Hlast.
  { destruct (last pool) as [x|] eqn:Hl; simpl.
    - rewrite last_lookup in Hl. by eapply list_elem_of_lookup_2.
    - apply last_None in Hl. rewrite Hl in Hle. simpl in Hle. lia. }
  assert (default [] (pool !! (length pool / 2)) ∈ pool) as Hmid.
  { destruct (pool !! (length pool / 2)) as [x|] eqn:Hl; simpl.
    - by eapply list_elem_of_lookup_2.
    - apply lookup_ge_None in Hl. exfalso.
      apply (Nat.lt_irrefl (length pool)).
      eapply Nat.le_lt_trans; [exact Hl|]. apply Nat.div_lt; lia. }
  set (selected := if 2 <? length pool then _ else _).
  assert (forall x, x ∈ selected -> x ∈ pool) as Hsel.
  { intros x. subst selected.
    destruct (1 <? length pool), (2 <? length pool);
      rewrite ?elem_of_app, ?list_elem_of_singleton; intuition (subst; done). }
  pose proof (Hsub g (filter (fun s => s ∉ selected) pool)) as Hrem.
  destruct (shuffle g _) as [g' remaining]. simpl in *.
  intros He. apply subseteq_take in He.
  apply elem_of_fill in He as [He|He]; [by apply Hsel|].
  apply list_elem_of_In, in_rev, list_elem_of_In in He. apply Hrem in He.
  by apply list_elem_of_filter in He as [_ He].
Qed.

(** X7. Every example the selector returns is the stripped text of a
    sentence of the reservoir; if the reservoir has a sentence that passes
    the filter (more than 10 characters, not a heading, no link), every
    returned example passes it; and the selector returns nothing exactly when
    no sentence id of the reservoir resolves.  The shuffle may be any
    rearrangement of its argument. *)
Theorem selected_examples_from_reservoir (sentence_ids : gset str)
    (sentences : gmap str str) (max_examples : nat) (g : rng) :
  (forall g l x, x ∈ (shuffle g l).2 -> x ∈ l) ->
  0 < max_examples ->
  let examples := (select_example_sentences shuffle set_iter sentence_ids
                     sentences max_examples g).2 in
  (forall e, e ∈ examples ->
     exists sid t, sid ∈ set_iter sentence_ids /\ sentences !! sid = Some t /\
                   e = strip t) /\
  ((exists sid t, sid ∈ set_iter sentence_ids /\ sentences !! sid = Some t /\
                  acceptable (strip t) = true) ->
   forall e, e ∈ examples -> acceptable e = true) /\
  (examples = [] <->
   forall sid, sid ∈ set_iter sentence_ids -> sentences !! sid = None).
Proof.
  intros Hsub Hmax examples. subst examples. split; [|split].
  - intros e He. apply elem_of_example_pool.
    by apply (select_subset_pool sentence_ids sentences max_examples g).
  - intros Hgood e He. apply (example_pool_acceptable _ _ Hgood).
    by apply (select_subset_pool sentence_ids sentences max_examples g).
  - rewrite <- example_pool_nil. rewrite select_unfold.
    set (pool := example_pool (set_iter sentence_ids) sentences).
    cbv zeta. destruct (length pool <=? max_examples) eqn:Hle; [done|].
    apply Nat.leb_gt in Hle.
    set (selected := if 2 <? length pool then _ else _).
    assert (0 < length selected) as Hsel.
    { subst selected. destruct (1 <? length pool), (2 <? length pool);
        rewrite ?length_app; simpl; lia. }
    destruct (shuffle g _) as [g' remaining]. clearbody selected. simpl.
    pose proof (fill_length_ge max_examples selected (rev remaining)) as Hfill.
    split.
    + intros Hnil. apply (f_equal length) in Hnil.
      rewrite length_take in Hnil. change (length (@nil str)) with 0 in Hnil.
      unfold str in *. lia.
    + intros Hnil. rewrite Hnil in Hle. simpl in Hle. lia.
Qed.

(** X8. A pool of at most five texts is returned as it is, in reservoir
    order, and the generator is not used.  From a larger pool the selector
    returns the first, the last and the middle text, followed by up to two
    of the texts that differ from these three, so between three and five
    texts; the shuffle may be anything that keeps the length of its
    argument. *)
Theorem selection_shape (sentence_ids : gset str) (sentences : gmap str str)
    (g : rng) :
  (forall g l, length (shuffle g l).2 = length l) ->
  let pool := example_pool (set_iter sentence_ids) sentences in
  let run := select_example_sentences shuffle set_iter sentence_ids sentences 5 g in
  (length pool <= 5 -> run = (g, pool)) /\
  (5 < length pool ->
   exists first final middle,
     head pool = Some first /\ last pool = Some final /\
     pool !! (length pool / 2) = Some middle /\
     let remaining := filter (fun s => s ∉ [first; final; middle]) pool in
     run.2 = [first; final; middle] ++ take 2 (rev (shuffle g remaining).2) /\
     length run.2 = 3 + 2 `min` length remaining).
Proof.
  intros Hlen pool run. subst run. rewrite select_unfold. fold pool. cbv zeta.
  split.
  - intros Hle. by rewrite (proj2 (Nat.leb_le _ _) Hle).
  - intros Hgt. rewrite (proj2 (Nat.leb_gt _ _) Hgt).
    rewrite (proj2 (Nat.ltb_lt 1 _)) by lia.
    rewrite (proj2 (Nat.ltb_lt 2 _)) by lia.
    destruct (head pool) as [first|] eqn:Hh;
      [|destruct pool; simpl in *; [lia|done]].
    destruct (last pool) as [final|] eqn:Hl;
      [|apply last_None in Hl; rewrite Hl in Hgt; simpl in Hgt; lia].
    destruct (pool !! (length pool / 2)) as [middle|] eqn:Hm.
    2:{ apply lookup_ge_None in Hm. exfalso.
        apply (Nat.lt_irrefl (length pool)).
        eapply Nat.le_lt_trans; [exact Hm|]. apply Nat.div_lt; lia. }
    exists first, final, middle. repeat (split; [done|]). simpl.
    specialize (Hlen g (filter (fun s => s ∉ [first; final; middle]) pool)).
    destruct (shuffle g _) as [g' remaining]. simpl in *.
    rewrite fill_three.
    assert (length (take 2 (rev remaining)) = 2 `min` length remaining) as Htake
      by (by rewrite length_take, length_rev).
    rewrite Hlen in Htake.
    assert (length (take 2 (rev remaining)) <= 2) as Hle2
      by (rewrite length_take; apply Nat.le_min_l).
    rewrite take_ge.
    + split; [done|]. rewrite length_app, Htake. done.
    + rewrite length_app. change (length [first; final; middle]) with 3.
      unfold str in *. lia.
Qed.

End SelectorFacts.

Lemma selected_examples_from_reservoir_witness :
  let examples := (select_example_sentences Samples.no_shuffle elements
                     {[py "s1"]} {[py "s1" := py "Mačka spí na gauči."]} 5 tt).2 in
  (forall e, e ∈ examples ->
     exists sid t, sid ∈ elements ({[py "s1"]} : gset str) /\
                   ({[py "s1" := py "Mačka spí na gauči."]} : gmap str str) !! sid = Some t /\
                   e = strip t) /\
  ((exists sid t, sid ∈ elements ({[py "s1"]} : gset str) /\
                  ({[py "s1" := py "Mačka spí na gauči."]} : gmap str str) !! sid = Some t /\
                  acceptable (strip t) = true) ->
   forall e, e ∈ examples -> acceptable e = true) /\
  (examples = [] <->
   forall sid, sid ∈ elements ({[py "s1"]} : gset str) ->
     ({[py "s1" := py "Mačka spí na gauči."]} : gmap str str) !! sid = None).
Proof.
  apply (selected_examples_from_reservoir Samples.no_shuffle elements).
  - intros g l x Hx. exact Hx.
  - lia.
Defined.

Lemma selection_shape_witness :
  select_example_sentences Samples.no_shuffle elements
    {[py "s1"]} {[py "s1" := py "Mačka spí na gauči."]} 5 tt
  = (tt, example_pool (elements ({[py "s1"]} : gset str))
           {[py "s1" := py "Mačka spí na gauči."]}).
Proof.
  apply (proj1 (selection_shape Samples.no_shuffle elements
                  {[py "s1"]} {[py "s1" := py "Mačka spí na gauči."]} tt
                  (fun g l => eq_refl))).
  vm_compute. lia.
Defined.

(* ===================================================================== *)
(** ** The store, the statistics, the export *)
(* ===================================================================== *)

Section StoreFacts.
Context {rng : Type} (shuffle : rng -> list str -> rng * list str).
Context (set_iter : gset str -> list str).
Implicit Types (wordforms_data items : PyDict.dict str WordformRecord).
Implicit Types (sentences : gmap str str) (insert_data : list Row).









End StoreFacts.



(* ===================================================================== *)
(** ** The order of [sorted] on strings *)
(* ===================================================================== *)

Section OrderFacts.
Implicit Types (a b c : str).





End OrderFacts.

Section SortFacts.
Context {V : Type}.
Implicit Types (x y : str * V) (l : list (str * V)).





End SortFacts.

Section DictElemFacts.
Context {K : Type} `{EqDecision K} {V : Type}.

Lemma dict_elem_get (d : PyDict.dict K V) (k : K) (v : V) :
  NoDup (PyDict.keys d) -> (k, v) ∈ d -> PyDict.get k d = Some v.
Proof.
  intros Hnodup Hin.
  induction d as [|[k0 v0] d IH]; [by apply elem_of_nil in Hin|].
  simpl in *. apply NoDup_cons in Hnodup as [Hk0 Hnodup].
  apply elem_of_cons in Hin as [[= -> ->]|Hin].
  - by rewrite decide_True.
  - rewrite decide_False; [by apply IH|].
    intros ->. apply Hk0. apply (list_elem_of_fmap_2 fst) in Hin. exact Hin.
Qed.
End DictElemFacts.

Section ExportFacts.
Context {rng : Type} (shuffle : rng -> list str -> rng * list str).
Context (set_iter : gset str -> list str).



End ExportFacts.


(* ===================================================================== *)
(** ** A whole run *)
(* ===================================================================== *)

Section RunFacts.
Context {rng : Type} (shuffle : rng -> list str -> rng * list str).
Context (set_iter : gset str -> list str).





End RunFacts.


(* ===================================================================== *)
(** ** The SAX handler *)
(* ===================================================================== *)

Section SaxFacts.
Import Sax.
Context (extract_lines : str -> list str).
Implicit Types (self : ParserState) (events : list sax_event).














Lemma dict_set_lengths (k : str) (v : list str) (d : PyDict.dict str (list str)) :
  sum_list (map (fun e => length e.2) (PyDict.set k v d))
  + length (default [] (PyDict.get k d))
  = sum_list (map (fun e => length e.2) d) + length v.
Proof.
  induction d as [|[k' v'] d IH]; simpl; [lia|].
  destruct (decide (k = k')) as [->|Hne]; simpl; lia.
Qed.

Lemma dict_set_Forall {V : Type} (Q : str * V -> Prop) (k : str) (v : V)
    (d : PyDict.dict str V) :
  Q (k, v) -> Forall Q d -> Forall Q (PyDict.set k v d).
Proof.
  intros Hq. induction d as [|[k' v'] d IH]; simpl; intros Hd.
  - by constructor.
  - apply Forall_cons in Hd as [Hd1 Hd].
    destruct (decide (k = k')); constructor; auto.
Qed.

Lemma candidate_key_lower title text key :
  candidate_key title text = Some key -> lower key = key.
Proof.
  unfold candidate_key.
  destruct (negb (truthy title) || negb (truthy text)); [done|].
  destruct (has_char 58 (strip title) || has_char 32 (strip title)
            || existsb isdigit (strip title)); [done|].
  destruct (fullmatch_key (strip title)) eqn:Hmatch; simpl; [|done].
  intros [= <-]. unfold fullmatch_key in Hmatch.
  apply andb_true_iff in Hmatch as [[Hclass _]%andb_true_iff _].
  by apply lower_idempotent.
Qed.

Lemma process_page_wf title text (h : WikiHandler) :
  examples_wf h -> examples_wf (process_page extract_lines title text h).
Proof.
  intros (Hnd & Hall & Hcount). unfold process_page.
  destruct (candidate_key title text) as [key|] eqn:Hkey; [|done].
  destruct (extract_lines text) as [|x rest] eqn:Hlines; [done|].
  rewrite take1_dedup. cbn [take]. rewrite take_0.
  split; [|split]; cbn [examples pages_with_examples].
  - by apply dict_set_NoDup.
  - apply dict_set_Forall; [|done]. simpl. split.
    + by destruct (default [] (PyDict.get key (examples h))).
    + by eapply candidate_key_lower.
  - pose proof (dict_set_lengths key
                  (default [] (PyDict.get key (examples h)) ++ [x]) (examples h)) as Hsum.
    rewrite length_app in Hsum. simpl in Hsum. lia.
Qed.

Lemma handle_wf self ev :
  examples_wf (handler self) /\ pages_with_examples (handler self) <= total_pages self ->
  examples_wf (handler (handle extract_lines self ev)) /\
  pages_with_examples (handler (handle extract_lines self ev))
    <= total_pages (handle extract_lines self ev).
Proof.
  intros [Hwf Hle]. destruct ev as [name|name|content]; simpl.
  - unfold startElement. by repeat destruct (bool_decide _).
  - unfold endElement. repeat destruct (bool_decide _); simpl; try done.
    split; [by apply process_page_wf|].
    unfold process_page. destruct (candidate_key _ _); [|lia].
    destruct (extract_lines _); simpl; lia.
  - unfold characters. by destruct (in_title self), (in_text self).
Qed.

(** X15. Whatever events the parser delivers, in whatever order, the example
    map of the handler keeps each key once, every key is its own lower-casing,
    no key has an empty list, and the counter of pages with examples is the
    number of examples stored, which never exceeds the number of pages. *)
Theorem handler_examples_well_formed (events : list sax_event) :
  examples_wf (handler (parse extract_lines events init)) /\
  pages_with_examples (handler (parse extract_lines events init))
    <= total_pages (parse extract_lines events init).
Proof.
  assert (forall self,
            examples_wf (handler self) /\
            pages_with_examples (handler self) <= total_pages self ->
            examples_wf (handler (parse extract_lines events self)) /\
            pages_with_examples (handler (parse extract_lines events self))
              <= total_pages (parse extract_lines events self)) as Hgen.
  { induction events as [|ev events IH]; intros self Hwf; simpl; [done|].
    apply IH. by apply handle_wf. }
  apply Hgen. repeat split; simpl; [constructor|constructor|lia].
Qed.
End SaxFacts.


(* ===================================================================== *)
(** ** What the merge returns *)
(* ===================================================================== *)

Section MergeResult.
Implicit Types (h : heap) (d existing : exdict) (k w : str) (l : loc).

Lemma merge_all_concat (st : heap * exdict) (new_dicts : list exdict) :
  merge_all st new_dicts = fold_left merge_item (concat new_dicts) st.
Proof.
  unfold merge_all. revert st.
  induction new_dicts as [|d ds IH]; intros st; simpl; [done|].
  by rewrite fold_left_app, IH.
Qed.

Lemma item_examples_snoc h (items : list (str * loc)) it k :
  item_examples h (items ++ [it]) k
  = item_examples h items k ++ (if decide (it.1 = k) then deref h it.2 else []).
Proof. unfold item_examples. rewrite flat_map_app. simpl. by rewrite app_nil_r. Qed.

Lemma item_examples_absent h (items : list (str * loc)) k :
  k ∉ map fst items -> item_examples h items k = [].
Proof.
  induction items as [|[k' l'] items IH]; simpl; [done|].
  intros Hk. apply not_elem_of_cons in Hk as [Hne Hk].
  rewrite decide_False by done. by apply IH.
Qed.

Lemma item_examples_dict h d k :
  NoDup (PyDict.keys d) -> item_examples h d k = examples_at h d k.
Proof.
  unfold examples_at. induction d as [|[k' l'] d IH]; simpl; [done|].
  intros [Hk' Hnd]%NoDup_cons. destruct (decide (k' = k)) as [->|Hne].
  - rewrite decide_True by done. simpl.
    rewrite item_examples_absent by done. by rewrite app_nil_r.
  - rewrite decide_False by done. by apply IH.
Qed.

Lemma item_examples_concat h (ds : list exdict) k :
  Forall (fun d => NoDup (PyDict.keys d)) ds ->
  item_examples h (concat ds) k = flat_map (fun d => examples_at h d k) ds.
Proof.
  induction 1 as [|d ds Hd _ IH]; simpl; [done|].
  unfold item_examples in *. rewrite flat_map_app, IH. f_equal.
  by apply item_examples_dict.
Qed.

Lemma keys_concat (ds : list exdict) :
  map fst (concat ds) = flat_map PyDict.keys ds.
Proof.
  induction ds as [|d ds IH]; simpl; [done|]. by rewrite map_app, IH.
Qed.

Lemma elem_same_loc d k k' l :
  NoDup (map snd d) -> (k, l) ∈ d -> (k', l) ∈ d -> k = k'.
Proof.
  induction d as [|[k0 l0] d IH]; simpl; [by intros _ ?%elem_of_nil|].
  intros [Hl0 Hnd]%NoDup_cons [[= -> ->]|H1]%elem_of_cons [[= ->]|H2]%elem_of_cons.
  - done.
  - exfalso. apply Hl0. by apply (list_elem_of_fmap_2 snd) in H2.
  - subst. exfalso. apply Hl0. by apply (list_elem_of_fmap_2 snd) in H1.
  - by apply IH.
Qed.

Lemma elem_same_key d k l l' :
  NoDup (PyDict.keys d) -> (k, l) ∈ d -> (k, l') ∈ d -> l = l'.
Proof.
  intros Hnd H1 H2. apply (dict_elem_get d k l Hnd) in H1.
  apply (dict_elem_get d k l' Hnd) in H2. congruence.
Qed.

Context (P : loc -> Prop).

(** The accumulator after the items [items]: its keys in first-seen order,
    and under every key the existing examples followed by those of the
    items for that key. *)
Lemma merge_items_exact h existing (items : list (str * loc)) :
  merge_inv P (h, existing) -> own_lists existing ->
  Forall (fun e => P e.2) items ->
  own_lists (fold_left merge_item items (h, existing)).2 /\
  PyDict.keys (fold_left merge_item items (h, existing)).2
    = dedup (PyDict.keys existing ++ map fst items) /\
  forall k l, (k, l) ∈ (fold_left merge_item items (h, existing)).2 ->
    deref (fold_left merge_item items (h, existing)).1 l
    = examples_at h existing k ++ item_examples h items k.
Proof.
  intros Hinv0 [Hnk0 Hnl0] Hitems.
  induction items as [|[w ln] items IH] using rev_ind.
  - simpl. split; [done|]. split.
    + rewrite app_nil_r. by rewrite dedup_NoDup.
    + intros k l Hin. unfold examples_at, item_examples. simpl.
      rewrite app_nil_r. by rewrite (dict_elem_get existing k l Hnk0 Hin).
  - apply Forall_app in Hitems as [Hitems Hln]. apply Forall_cons in Hln as [Hln _].
    simpl in Hln. specialize (IH Hitems).
    destruct (merge_items_fold P items (h, existing) Hinv0 Hitems)
      as (Hinv1 & (_ & _ & Hframe1) & _).
    rewrite fold_left_app. simpl.
    destruct (fold_left merge_item items (h, existing)) as [h1 m1] eqn:Hst1.
    simpl in *. destruct IH as ([Hnk Hnl] & Hkeys & Hcont).
    destruct Hinv1 as [Hread Hacc]. simpl in *.
    rewrite map_app. simpl map. rewrite app_assoc, dedup_snoc.
    destruct (PyDict.mem w m1) eqn:Hmem.
    + destruct (dict_mem_get _ _ Hmem) as [l Hl]. rewrite Hl. simpl.
      assert ((w, l) ∈ m1) as Hwl by (by apply dict_get_elem).
      assert (~ P l /\ l < length h1) as [HnP Hlt].
      { rewrite Forall_forall in Hacc. apply (Hacc (w, l) Hwl). }
      split; [done|]. split.
      * rewrite decide_True; [by rewrite app_nil_r|].
        apply elem_of_dedup. rewrite <- Hkeys. by eapply dict_get_Some_key.
      * intros k l' Hin. rewrite item_examples_snoc. simpl.
        destruct (decide (l = l')) as [<-|Hne].
        -- assert (k = w) as -> by (by eapply elem_same_loc).
           rewrite deref_insert_eq by done. rewrite decide_True by done.
           rewrite (Hcont w l Hwl), (Hframe1 ln Hln). by rewrite <- app_assoc.
        -- rewrite deref_insert_ne by done.
           rewrite decide_False; [rewrite app_nil_r; by apply Hcont|].
           intros ->. apply Hne. by eapply elem_same_key.
    + pose proof (dict_mem_false _ _ Hmem) as Hnone.
      rewrite (dict_get_app_r w m1 [(w, length h1)] Hnone). simpl.
      rewrite decide_True by done. simpl.
      pose proof (Hread ln Hln) as Hlnlt.
      pose proof (dict_get_None _ _ Hnone) as Hw.
      assert (w ∉ PyDict.keys existing ++ map fst items) as Hw'.
      { intros Hin. apply Hw. rewrite Hkeys. by apply elem_of_dedup. }
      split; [|split].
      * split.
        -- unfold PyDict.keys in *. rewrite map_app. simpl.
           apply NoDup_app. split; [done|]. split; [|apply NoDup_singleton].
           intros x Hx ->%list_elem_of_singleton. done.
        -- rewrite map_app. simpl.
           apply NoDup_app. split; [done|]. split; [|apply NoDup_singleton].
           intros x Hx ->%list_elem_of_singleton.
           apply list_elem_of_fmap in Hx as ([k' l'] & Heq & Hin).
           rewrite Forall_forall in Hacc. destruct (Hacc _ Hin) as [_ Hlt].
           simpl in Hlt, Heq. lia.
      * unfold PyDict.keys in *. rewrite map_app. simpl. rewrite Hkeys.
        by rewrite decide_False.
      * intros k l' [Hin|Hin]%elem_of_app; rewrite item_examples_snoc; simpl.
        -- rewrite Forall_forall in Hacc. destruct (Hacc _ Hin) as [_ Hlt].
           simpl in Hlt.
           rewrite deref_insert_ne by lia. rewrite deref_app_lt by done.
           rewrite decide_False; [rewrite app_nil_r; by apply Hcont|].
           intros ->. apply Hw. by apply (list_elem_of_fmap_2 fst) in Hin.
        -- apply list_elem_of_singleton in Hin as [= -> ->].
           rewrite deref_insert_eq by (rewrite length_app; simpl; lia).
           rewrite (deref_app_lt h1 [[]] ln Hlnlt), (deref_app_new h1 []), app_nil_l.
           rewrite decide_True by done. rewrite (Hframe1 ln Hln).
           unfold examples_at.
           assert (PyDict.get w existing = None) as ->.
           { destruct (PyDict.get w existing) eqn:Hg; [|done].
             exfalso. apply Hw'. apply elem_of_app. left.
             by eapply dict_get_Some_key. }
           rewrite item_examples_absent; [done|].
           intros Hin. apply Hw'. apply elem_of_app. by right.
Qed.
End MergeResult.

Section MergeResultClaims.

Lemma get_map_keys {V} (f : str -> V) (ks : list str) (k : str) :
  k ∈ ks -> PyDict.get k (map (fun k => (k, f k)) ks) = Some (f k).
Proof.
  induction ks as [|k' ks IH]; simpl; [by intros ?%elem_of_nil|].
  intros Hk. destruct (decide (k = k')) as [->|Hne]; [done|].
  apply IH. apply elem_of_cons in Hk as [?|?]; done.
Qed.

(** The returned map in closed form. *)
Lemma merge_and_clean_closed_form (h : heap) (existing : exdict) (new_dicts : list exdict) :
  valid h existing -> Forall (valid h) new_dicts ->
  Forall (separate existing) new_dicts ->
  own_lists existing ->
  Forall (fun d => NoDup (PyDict.keys d)) new_dicts ->
  (merge_and_clean h existing new_dicts).2
  = map (fun k => (k, take 1 (all_examples h existing new_dicts k)))
        (all_keys existing new_dicts).
Proof.
  intros Hex Hnew Hsep Hown Hnd.
  rewrite merge_and_clean_result, merge_all_concat.
  pose proof (merge_inv_initial h existing new_dicts Hex Hnew Hsep) as Hinv.
  assert (Forall (fun e => read_by new_dicts e.2) (concat new_dicts)) as Hitems.
  { apply Forall_concat. apply read_by_items. }
  destruct (merge_items_exact (read_by new_dicts) h existing (concat new_dicts)
              Hinv Hown Hitems) as (_ & Hkeys & Hcont).
  destruct (fold_left merge_item (concat new_dicts) (h, existing)) as [h' merged].
  simpl in *. unfold all_keys. rewrite <- keys_concat, <- Hkeys.
  unfold clean, PyDict.keys. rewrite map_map.
  apply map_ext_in. intros [k l] Hin%list_elem_of_In. simpl.
  f_equal. rewrite take1_dedup, (Hcont k l Hin). unfold all_examples.
  by rewrite item_examples_concat.
Qed.


(** X16. What [merge_and_clean] returns, when the maps share no list, every
    map has each key once and the existing map has a list of its own per
    key: the keys of the existing map followed by the new keys in the order
    in which the sources bring them, each once; and under every key the first
    of all its examples, those of the existing map counting before those of
    the sources, the sources in their order; a key without any example keeps
    the empty list. *)
Theorem merge_result (h : heap) (existing : exdict) (new_dicts : list exdict) :
  valid h existing -> Forall (valid h) new_dicts ->
  Forall (separate existing) new_dicts ->
  own_lists existing ->
  Forall (fun d => NoDup (PyDict.keys d)) new_dicts ->
  (merge_and_clean h existing new_dicts).2
  = map (fun k => (k, take 1 (all_examples h existing new_dicts k)))
        (all_keys existing new_dicts).
Proof. apply merge_and_clean_closed_form. Qed.

(** X17. Examples already on file come first: under the same conditions, a
    key whose list in the existing map is not empty is returned with the
    first example of that list, whatever the sources hold for it. *)
Theorem existing_example_kept (h : heap) (existing : exdict)
    (new_dicts : list exdict) (k : str) (l : loc) (x : str) (rest : list str) :
  valid h existing -> Forall (valid h) new_dicts ->
  Forall (separate existing) new_dicts ->
  own_lists existing ->
  Forall (fun d => NoDup (PyDict.keys d)) new_dicts ->
  PyDict.get k existing = Some l -> deref h l = x :: rest ->
  PyDict.get k (merge_and_clean h existing new_dicts).2 = Some [x].
Proof.
  intros Hex Hnew Hsep Hown Hnd Hk Hl.
  rewrite (merge_and_clean_closed_form h existing new_dicts Hex Hnew Hsep Hown Hnd).
  rewrite get_map_keys.
  - unfold all_examples, examples_at. rewrite Hk. simpl. rewrite Hl. simpl.
    by rewrite take_0.
  - unfold all_keys. apply elem_of_dedup, elem_of_app. left.
    by eapply dict_get_Some_key.
Qed.

(** X18. [merge_and_clean] never changes a list of a source: when the
    existing map shares no list with the sources, every source reads after
    the call as it did before. *)
Theorem merge_leaves_sources (h : heap) (existing : exdict)
    (new_dicts : list exdict) (d : exdict) :
  valid h existing -> Forall (valid h) new_dicts ->
  Forall (separate existing) new_dicts ->
  d ∈ new_dicts ->
  view (merge_and_clean h existing new_dicts).1 d = view h d.
Proof.
  intros Hex Hnew Hsep Hd. rewrite merge_and_clean_heap.
  pose proof (merge_inv_initial h existing new_dicts Hex Hnew Hsep) as Hinv.
  destruct (merge_all_fold (read_by new_dicts) new_dicts (h, existing) Hinv
              (read_by_items new_dicts)) as (_ & (_ & _ & Hframe) & _).
  unfold view. apply map_ext_in. intros [k l] Hin%list_elem_of_In. simpl.
  f_equal. apply Hframe. by exists d, (k, l).
Qed.

Lemma merge_result_witness :
  (merge_and_clean Samples.lists Samples.existing_map [Samples.source_map]).2
  = map (fun k => (k, take 1 (all_examples Samples.lists Samples.existing_map
                                [Samples.source_map] k)))
        (all_keys Samples.existing_map [Samples.source_map]).
Proof.
  apply (merge_result Samples.lists Samples.existing_map [Samples.source_map]).
  - unfold valid. compute_done.
  - unfold valid. compute_done.
  - unfold separate. compute_done.
  - unfold own_lists. compute_done.
  - compute_done.
Defined.

Lemma existing_example_kept_witness :
  PyDict.get (py "mačka")
    (merge_and_clean Samples.lists Samples.existing_map [Samples.source_map]).2
  = Some [py "Mačka spí."].
Proof.
  apply (existing_example_kept Samples.lists Samples.existing_map
           [Samples.source_map] (py "mačka") 0 (py "Mačka spí.") []).
  - unfold valid. compute_done.
  - unfold valid. compute_done.
  - unfold separate. compute_done.
  - unfold own_lists. compute_done.
  - compute_done.
  - reflexivity.
  - reflexivity.
Defined.

Lemma merge_leaves_sources_witness :
  view (merge_and_clean Samples.lists Samples.existing_map [Samples.source_map]).1
       Samples.source_map
  = view Samples.lists Samples.source_map.
Proof.
  apply (merge_leaves_sources Samples.lists Samples.existing_map
           [Samples.source_map] Samples.source_map).
  - unfold valid. compute_done.
  - unfold valid. compute_done.
  - unfold separate. compute_done.
  - compute_done.
Defined.
End MergeResultClaims.

(* ===================================================================== *)
(** ** The key filter, exactly *)
(* ===================================================================== *)

Section KeyFilterExact.
Import ExamplesStream.

Lemma existsb_none {A} (f : A -> bool) (l : list A) :
  (forall x, x ∈ l -> f x = false) -> existsb f l = false.
Proof.
  induction l as [|a l IH]; simpl; [done|]. intros Hall.
  rewrite (Hall a) by (apply elem_of_cons; by left). simpl.
  apply IH. intros x Hx. apply Hall. apply elem_of_cons; by right.
Qed.

Lemma alphabet_key_class c : in_alphabet c = true -> key_class c = true.
Proof. unfold key_class, in_alphabet. intros ->. done. Qed.

Lemma alphabet_excludes c :
  in_alphabet c = true ->
  c <> 0x3a%Z /\ c <> 0x20%Z /\ isdigit c = false.
Proof.
  intros Hal. pose proof (alphabet_ok_all c) as Hok. unfold alphabet_ok in Hok.
  rewrite Hal in Hok. simpl in Hok.
  apply andb_true_iff in Hok as [[[Hs Hd]%andb_true_iff Hsep]%andb_true_iff _].
  apply negb_true_iff in Hs, Hd, Hsep. apply Z.eqb_neq in Hsep.
  split; [done|]. split; [|done]. intros ->. by vm_compute in Hs.
Qed.

(** X19. The title filter of [process_page], exactly: a page is filed under
    a key if and only if its title and its text are not empty and the
    stripped title has between 2 and 30 code points, all of them in A-Z, a-z
    or U+00C0..U+017E; the key is then the lower-cased stripped title.  The
    test for ':', ' ' and digits of line 92 and the letters listed one by one
    in the pattern of line 96 reject and admit nothing on their own. *)
Theorem candidate_key_exact (current_title current_text key : str) :
  candidate_key current_title current_text = Some key <->
  current_title <> [] /\ current_text <> [] /\
  2 <= length (strip current_title) <= 30 /\
  Forall (fun c => in_alphabet c = true) (strip current_title) /\
  key = lower (strip current_title).
Proof.
  unfold candidate_key. split.
  - destruct current_title as [|t title]; [done|].
    destruct current_text as [|x text]; [done|]. cbn [truthy negb orb].
    destruct (has_char 58 _ || has_char 32 _ || existsb isdigit _); [done|].
    destruct (fullmatch_key _) eqn:Hmatch; simpl; [|done].
    intros [= <-]. unfold fullmatch_key in Hmatch.
    apply andb_true_iff in Hmatch as [[Hclass H2]%andb_true_iff H30].
    apply Nat.leb_le in H2, H30.
    split; [done|]. split; [done|]. split; [lia|]. split; [|done].
    apply Forall_forall. intros c Hc. rewrite forallb_forall in Hclass.
    apply key_class_alphabet, Hclass. by apply list_elem_of_In.
  - intros (Ht & Hx & Hlen & Hal & ->).
    destruct current_title as [|t title]; [done|].
    destruct current_text as [|x text]; [done|]. cbn [truthy negb orb].
    rewrite Forall_forall in Hal.
    assert (has_char 58 (strip (t :: title)) = false) as ->.
    { apply existsb_none. intros c Hc. apply Z.eqb_neq.
      destruct (alphabet_excludes c (Hal c Hc)) as (? & _ & _). congruence. }
    assert (has_char 32 (strip (t :: title)) = false) as ->.
    { apply existsb_none. intros c Hc. apply Z.eqb_neq.
      destruct (alphabet_excludes c (Hal c Hc)) as (_ & ? & _). congruence. }
    assert (existsb isdigit (strip (t :: title)) = false) as ->.
    { apply existsb_none. intros c Hc.
      by destruct (alphabet_excludes c (Hal c Hc)) as (_ & _ & ?). }
    assert (fullmatch_key (strip (t :: title)) = true) as ->; [|done].
    unfold fullmatch_key. rewrite !andb_true_iff, !Nat.leb_le.
    split; [split; [|lia]|lia].
    apply forallb_forall. intros c Hc%list_elem_of_In.
    by apply alphabet_key_class, Hal.
Qed.

Lemma candidate_key_exact_witness :
  candidate_key (py " Mačka ") (py "text") = Some (py "mačka").
Proof.
  apply (proj2 (candidate_key_exact (py " Mačka ") (py "text") (py "mačka"))).
  split; [done|]. split; [done|]. split; [vm_compute; lia|].
  split; [|by vm_compute]. by repeat constructor.
Defined.
End KeyFilterExact.
